(** * SuperQuiz live server: a shallow embedding of the Socket.IO back end

    The development follows [server.js]: the process-wide [liveRooms] map,
    the code generator and the six event handlers registered on every
    connection ([createLive], [joinLive], [nextQuestion], [submitAnswer],
    [endLive], [disconnect]).

    Modelling choices.
    - A handler is a function from the server state to a [result]: the
      state it leaves behind, the messages it sent, in the order it sent
      them, and whether it ended by throwing.
    - [liveRooms] is a JavaScript [Map]: its iteration order is the
      insertion order, which [disconnect] depends on, so it is a list of
      key/value pairs.  [room.participants] is a [Map] of which only
      [get], [set] and [size] are used, and [participant.answers] is a
      plain object: both are finite maps ([gmap]).
    - A room object is reached only through [liveRooms]; a mutation of
      the room or of one of its participants is an update in place of the
      entry it was read from.
    - Session codes and user fields are strings of 8-bit characters;
      [toUpperCase] acts on the letters a..z and leaves every other
      character alone.
    - [answerIndex] and the entries of [question.correct] are integers,
      on which the comparison of [Array.prototype.includes] is equality.
    - Group membership is what [socket.join] builds; the handlers never
      leave a group, and what the transport does on its own when a
      connection closes is not part of the server.
    - The two sources of non-determinism of [createLive] are arguments:
      what Firestore answered, and the successive values of
      [Math.random().toString(36).substring(2, 8)]. *)

From Stdlib Require Import ZArith Ascii String Bool Lia.
From stdpp Require Import gmap strings list fin_maps.

Local Open Scope Z_scope.

(** ** JavaScript strings *)

Definition upper_ascii (c : ascii) : ascii :=
  let n := nat_of_ascii c in
  if (Nat.leb 97 n && Nat.leb n 122)%bool then ascii_of_nat (n - 32) else c.

Fixpoint toUpperCase (s : string) : string :=
  match s with
  | EmptyString => EmptyString
  | String c s' => String (upper_ascii c) (toUpperCase s')
  end.

(** ** JavaScript [Map] with insertion order *)

Module JsMap.
Section Ops.
Context {V : Type}.

Fixpoint get (k : string) (m : list (string * V)) : option V :=
  match m with
  | [] => None
  | (k', v) :: m' => if String.eqb k k' then Some v else get k m'
  end.

Definition has (k : string) (m : list (string * V)) : bool :=
  match get k m with Some _ => true | None => false end.

(** [set] on a key already present keeps its position; a new key goes
    to the end. *)
Fixpoint set (k : string) (v : V) (m : list (string * V)) : list (string * V) :=
  match m with
  | [] => [(k, v)]
  | (k', v') :: m' =>
      if String.eqb k k' then (k, v) :: m' else (k', v') :: set k v m'
  end.

Fixpoint delete (k : string) (m : list (string * V)) : list (string * V) :=
  match m with
  | [] => []
  | (k', v') :: m' =>
      if String.eqb k k' then delete k m' else (k', v') :: delete k m'
  end.

(** In-place mutation of the object stored under [k]. *)
Fixpoint mutate (k : string) (f : V -> V) (m : list (string * V)) : list (string * V) :=
  match m with
  | [] => []
  | (k', v') :: m' =>
      if String.eqb k k' then (k', f v') :: m' else (k', v') :: mutate k f m'
  end.
End Ops.
End JsMap.

(** ** Data model *)

(** [socket.user], attached by the authentication middleware. *)
Record user := User {
  uid : string;
  email : string;
  user_name : string;
  role : string
}.

(** A connection.  Object identity of sockets ([===]) is identity of [sid]. *)
Record socket := Socket {
  sid : nat;
  socket_user : user
}.

Definition same_socket (a b : socket) : bool := Nat.eqb (sid a) (sid b).

(** A question of the quiz document; [content] stands for the fields the
    server only forwards. *)
Record question := Question {
  content : string;
  correct : list Z
}.

(** [quizDoc.data()]. *)
Record quizData := QuizData {
  ownerUid : string;
  questions : list question
}.

Record participant := Participant {
  name : string;
  score : Z;
  answers : gmap Z Z
}.

Record room := Room {
  code : string;
  hostSocket : socket;
  quizId : string;
  quiz : quizData;
  currentIndex : Z;
  participants : gmap string participant
}.

(** The server state: [liveRooms], and the Socket.IO room membership
    built by [socket.join]. *)
Record state := State {
  liveRooms : list (string * room);
  joined : gset (nat * string)
}.

Definition init : state := {| liveRooms := []; joined := ∅ |}.

(** ** Messages *)

Inductive error :=
| NotTeacher        (* 'Seuls les professeurs peuvent creer un live' *)
| QuizNotFound      (* 'Quiz introuvable' *)
| NotOwner          (* 'Vous n'etes pas le proprietaire de ce quiz' *)
| ServerError       (* 'Erreur serveur' *)
| InvalidCode.      (* 'Code invalide ou live termine' *)

(** Argument of the acknowledgement [callback]. *)
Inductive reply :=
| ReplyError (e : error)
| ReplyCode (c : string)
| ReplySuccess.

Inductive reason := quiz_completed | ended_by_teacher | teacher_disconnected.

(** Event name and payload of an [emit].  A field that the emitted object
    does not have is [None]; [questions[i]] out of range is [None] too. *)
Inductive payload :=
| liveCreated (c : string)
| studentJoined (n : string) (count : nat)
| newQuestion (q : option question) (index : Z)
| liveEnded (r : reason)
| answerReceived (n : string) (is_correct : option bool).

Inductive logline :=
| LogLiveCreated (u c : string)
| LogCreateError
| LogJoined (n c : string)
| LogQuizFinished (c : string)
| LogQuestionSent (i : Z) (c : string)
| LogEndedByTeacher (c : string)
| LogDisconnect (u r : string)
| LogTeacherDisconnected (c : string).

Inductive effect :=
| Callback (to : nat) (r : reply)                 (* callback(...) of the caller *)
| SocketEmit (to : nat) (p : payload)             (* socket.emit, room.hostSocket.emit *)
| IoTo (group : string) (p : payload)             (* io.to(group).emit *)
| SocketTo (from : nat) (group : string) (p : payload)  (* socket.to(group).emit *)
| Console (l : logline).

Record result := Result {
  st : state;
  out : list effect;
  threw : bool
}.

Definition ignored (s : state) : result :=
  {| st := s; out := []; threw := false |}.

(** ** Code generator *)

(** [rnd] is the value of [Math.random().toString(36).substring(2, 8)]. *)
Definition generateCode (rnd : string) : string :=
  String.append "QZ-" (toUpperCase rnd).

(** The [do ... while (liveRooms.has(code))] loop over the successive
    random draws; [None] when every draw supplied collides. *)
Fixpoint freshCode (draws : list string) (rooms : list (string * room)) : option string :=
  match draws with
  | [] => None
  | rnd :: draws' =>
      let c := generateCode rnd in
      if JsMap.has c rooms then freshCode draws' rooms else Some c
  end.

(** ** Handlers *)

(** What [admin.firestore().collection('quizzes').doc(quizId).get()] did. *)
Inductive fetched :=
| FetchThrows
| DocMissing
| Doc (d : quizData).

Definition createLive (s : state) (sock : socket) (qid : string)
    (f : fetched) (draws : list string) : option result :=
  let me := sid sock in
  if negb (String.eqb (role (socket_user sock)) "teacher") then
    Some {| st := s; out := [Callback me (ReplyError NotTeacher)]; threw := false |}
  else
    match f with
    | FetchThrows =>
        Some {| st := s;
                out := [Console LogCreateError; Callback me (ReplyError ServerError)];
                threw := false |}
    | DocMissing =>
        Some {| st := s; out := [Callback me (ReplyError QuizNotFound)]; threw := false |}
    | Doc quizData =>
        if negb (String.eqb (ownerUid quizData) (uid (socket_user sock))) then
          Some {| st := s; out := [Callback me (ReplyError NotOwner)]; threw := false |}
        else
          match freshCode draws (liveRooms s) with
          | None => None
          | Some c =>
              let r := {| code := c; hostSocket := sock; quizId := qid;
                          quiz := quizData; currentIndex := 0;
                          participants := ∅ |} in
              Some {| st := {| liveRooms := JsMap.set c r (liveRooms s);
                               joined := {[ (me, c) ]} ∪ joined s |};
                      out := [Console (LogLiveCreated (uid (socket_user sock)) c);
                              Callback me (ReplyCode c);
                              SocketEmit me (liveCreated c)];
                      threw := false |}
          end
    end.

(** [questions[i]] for a JavaScript number [i]. *)
Definition question_at (qs : list question) (i : Z) : option question :=
  if i <? 0 then None else qs !! Z.to_nat i.

Definition with_participant (u : string) (p : participant) (r : room) : room :=
  {| code := code r; hostSocket := hostSocket r; quizId := quizId r;
     quiz := quiz r; currentIndex := currentIndex r;
     participants := <[u := p]> (participants r) |}.

Definition joinLive (s : state) (sock : socket) (c : string) : result :=
  let me := sid sock in
  let key := toUpperCase c in
  match JsMap.get key (liveRooms s) with
  | None => {| st := s; out := [Callback me (ReplyError InvalidCode)]; threw := false |}
  | Some r =>
      let p := {| name := user_name (socket_user sock); score := 0; answers := ∅ |} in
      let r' := with_participant (uid (socket_user sock)) p r in
      let count := size (participants r') in
      {| st := {| liveRooms :=
                    JsMap.mutate key (with_participant (uid (socket_user sock)) p) (liveRooms s);
                  joined := {[ (me, c) ]} ∪ joined s |};
         out := [SocketEmit (sid (hostSocket r)) (studentJoined (name p) count);
                 SocketTo me c (studentJoined (name p) count);
                 Console (LogJoined (user_name (socket_user sock)) c);
                 Callback me ReplySuccess]
                ++ (if 0 <? currentIndex r
                    then [SocketEmit me
                            (newQuestion (question_at (questions (quiz r)) (currentIndex r - 1))
                                         (currentIndex r - 1))]
                    else []);
         threw := false |}
  end.

Definition advance (r : room) : room :=
  {| code := code r; hostSocket := hostSocket r; quizId := quizId r;
     quiz := quiz r; currentIndex := currentIndex r + 1;
     participants := participants r |}.

Definition nextQuestion (s : state) (sock : socket) (c : string) : result :=
  match JsMap.get c (liveRooms s) with
  | None => ignored s
  | Some r =>
      if negb (same_socket (hostSocket r) sock) then ignored s
      else if Z.of_nat (length (questions (quiz r))) <=? currentIndex r then
        {| st := {| liveRooms := JsMap.delete c (liveRooms s); joined := joined s |};
           out := [IoTo c (liveEnded quiz_completed); Console (LogQuizFinished c)];
           threw := false |}
      else
        let q := question_at (questions (quiz r)) (currentIndex r) in
        let r' := advance r in
        {| st := {| liveRooms := JsMap.mutate c advance (liveRooms s);
                    joined := joined s |};
           out := [IoTo c (newQuestion q (currentIndex r' - 1));
                   Console (LogQuestionSent (currentIndex r') c)];
           threw := false |}
  end.

Definition includes (a : Z) (l : list Z) : bool := existsb (Z.eqb a) l.

Definition record_answer (i a : Z) (p : participant) : participant :=
  {| name := name p; score := score p; answers := <[i := a]> (answers p) |}.

Definition increment_score (p : participant) : participant :=
  {| name := name p; score := score p + 1; answers := answers p |}.

Definition submitAnswer (s : state) (sock : socket) (c : string) (answerIndex : Z) : result :=
  match JsMap.get c (liveRooms s) with
  | None => ignored s
  | Some r =>
      let u := uid (socket_user sock) in
      match participants r !! u with
      | None => ignored s
      | Some p =>
          let currentQuestionIndex := currentIndex r - 1 in
          let p1 := record_answer currentQuestionIndex answerIndex p in
          match question_at (questions (quiz r)) currentQuestionIndex with
          | None =>
              (* [question.correct] on [undefined]: TypeError, after the
                 answer was stored *)
              {| st := {| liveRooms := JsMap.mutate c (with_participant u p1) (liveRooms s);
                          joined := joined s |};
                 out := [];
                 threw := true |}
          | Some q =>
              let isCorrect := includes answerIndex (correct q) in
              let p2 := if isCorrect then increment_score p1 else p1 in
              {| st := {| liveRooms := JsMap.mutate c (with_participant u p2) (liveRooms s);
                          joined := joined s |};
                 out := [SocketEmit (sid (hostSocket r))
                           (answerReceived (name p2) (Some isCorrect));
                         SocketTo (sid sock) c (answerReceived (name p2) None)];
                 threw := false |}
          end
      end
  end.

Definition endLive (s : state) (sock : socket) (c : string) : result :=
  match JsMap.get c (liveRooms s) with
  | None => ignored s
  | Some r =>
      if negb (same_socket (hostSocket r) sock) then ignored s
      else
        {| st := {| liveRooms := JsMap.delete c (liveRooms s); joined := joined s |};
           out := [IoTo c (liveEnded ended_by_teacher); Console (LogEndedByTeacher c)];
           threw := false |}
  end.

(** The [for ... of liveRooms.entries()] loop of [disconnect], with its
    [break]: the first entry whose host is the dropped socket. *)
Fixpoint hosted_by (sock : socket) (entries : list (string * room)) : option string :=
  match entries with
  | [] => None
  | (c, r) :: rest =>
      if same_socket (hostSocket r) sock then Some c else hosted_by sock rest
  end.

Definition disconnect (s : state) (sock : socket) (why : string) : result :=
  let hello := Console (LogDisconnect (uid (socket_user sock)) why) in
  match hosted_by sock (liveRooms s) with
  | None => {| st := s; out := [hello]; threw := false |}
  | Some c =>
      {| st := {| liveRooms := JsMap.delete c (liveRooms s); joined := joined s |};
         out := [hello; IoTo c (liveEnded teacher_disconnected);
                 Console (LogTeacherDisconnected c)];
         threw := false |}
  end.

(** ** Event router *)

Inductive event :=
| EvCreateLive (sock : socket) (qid : string) (f : fetched) (draws : list string)
| EvJoinLive (sock : socket) (c : string)
| EvNextQuestion (sock : socket) (c : string)
| EvSubmitAnswer (sock : socket) (c : string) (answerIndex : Z)
| EvEndLive (sock : socket) (c : string)
| EvDisconnect (sock : socket) (why : string).

Definition dispatch (s : state) (e : event) : option result :=
  match e with
  | EvCreateLive sock qid f draws => createLive s sock qid f draws
  | EvJoinLive sock c => Some (joinLive s sock c)
  | EvNextQuestion sock c => Some (nextQuestion s sock c)
  | EvSubmitAnswer sock c a => Some (submitAnswer s sock c a)
  | EvEndLive sock c => Some (endLive s sock c)
  | EvDisconnect sock why => Some (disconnect s sock why)
  end.

(** The events are handled one after the other; the messages accumulate. *)
Fixpoint run (s : state) (evs : list event) : option (state * list effect) :=
  match evs with
  | [] => Some (s, [])
  | e :: evs' =>
      match dispatch s e with
      | None => None
      | Some r =>
          match run (st r) evs' with
          | None => None
          | Some (s', o) => Some (s', out r ++ o)
          end
      end
  end.

(** ** A running example

    A teacher opens a live for a quiz of two questions, the random draw
    being "abc123"; a student joins with the code as returned. *)

Definition teacher : socket :=
  {| sid := 1;
     socket_user := {| uid := "t1"; email := "prof@example.org";
                       user_name := "Prof"; role := "teacher" |} |}.

Definition alice : socket :=
  {| sid := 2;
     socket_user := {| uid := "a1"; email := "alice@example.org";
                       user_name := "Alice"; role := "student" |} |}.

Definition bob : socket :=
  {| sid := 3;
     socket_user := {| uid := "b1"; email := "bob@example.org";
                       user_name := "Bob"; role := "student" |} |}.

Definition quiz2 : quizData :=
  {| ownerUid := "t1";
     questions := [ {| content := "2 + 2 ?"; correct := [1] |};
                    {| content := "primes ?"; correct := [0; 2] |} ] |}.

Definition quiz1 : quizData :=
  {| ownerUid := "t1";
     questions := [ {| content := "2 + 2 ?"; correct := [1] |} ] |}.

Definition state_of (o : option result) : state :=
  match o with Some r => st r | None => init end.

(** Lobby of the live "QZ-ABC123". *)
Definition lobby : state :=
  state_of (createLive init teacher "quiz-2" (Doc quiz2) ["abc123"]).

(** Alice has joined, no question sent yet. *)
Definition lobby_alice : state := st (joinLive lobby alice "QZ-ABC123").

(** The first question has been sent. *)
Definition question0_sent : state := st (nextQuestion lobby_alice teacher "QZ-ABC123").

(** ** Observations on a state *)

Definition participant_of (s : state) (c u : string) : option participant :=
  match JsMap.get c (liveRooms s) with
  | Some r => participants r !! u
  | None => None
  end.

Definition score_of (s : state) (c u : string) : option Z :=
  score <$> participant_of s c u.

(** The same handler call, [n] times in a row. *)
Fixpoint repeat_call (h : state -> result) (n : nat) (s : state) : state :=
  match n with
  | O => s
  | S n' => repeat_call h n' (st (h s))
  end.

(** What the other members of a group see: the [socket.to(...)] messages. *)
Definition to_peers (e : effect) : bool :=
  match e with SocketTo _ _ _ => true | _ => false end.

Definition peer_visible (o : list effect) : list effect := List.filter to_peers o.

(** The failure paths of [createLive]: wrong role, fetch failure, unknown
    quiz, quiz of somebody else. *)
Definition createLive_fails (sock : socket) (f : fetched) : Prop :=
  role (socket_user sock) <> "teacher"%string \/
  f = FetchThrows \/
  f = DocMissing \/
  exists d, f = Doc d /\ ownerUid d <> uid (socket_user sock).

(** Only the caller's acknowledgement carries the error [e]; the only
    other trace is the line on the server console. *)
Definition error_to_caller_only (sock : socket) (e : error) (o : list effect) : Prop :=
  o = [Callback (sid sock) (ReplyError e)] \/
  o = [Console LogCreateError; Callback (sid sock) (ReplyError e)].

(** The bounds of [currentIndex]. *)
Definition index_in_range (r : room) : Prop :=
  0 <= currentIndex r <= Z.of_nat (length (questions (quiz r))).

Definition all_in_range (s : state) : Prop :=
  Forall (fun kr : string * room => index_in_range (snd kr)) (liveRooms s).



(** A handler leaves [liveRooms] as it was, or adds one fresh room, or
    deletes one key, or mutates the room it looked up. *)
Inductive registry_change (s : state) : list (string * room) -> Prop :=
| change_none : registry_change s (liveRooms s)
| change_set c r :
    JsMap.get c (liveRooms s) = None ->
    (exists rnd, c = generateCode rnd) ->
    currentIndex r = 0 ->
    registry_change s (JsMap.set c r (liveRooms s))
| change_delete c :
    In c (map fst (liveRooms s)) ->
    registry_change s (JsMap.delete c (liveRooms s))
| change_mutate c f r :
    JsMap.get c (liveRooms s) = Some r ->
    quiz (f r) = quiz r ->
    (currentIndex (f r) = currentIndex r \/
     (currentIndex r < Z.of_nat (length (questions (quiz r))) /\
      currentIndex (f r) = currentIndex r + 1)) ->
    registry_change s (JsMap.mutate c f (liveRooms s)).

(** The entry is not hosted by the connection [sock]. *)
Definition not_hosted_by (sock : socket) (kr : string * room) : Prop :=
  same_socket (hostSocket (snd kr)) sock = false.

(** A state the server can be in: the result of handling some sequence
    of events, starting with no live. *)
Definition reachable (s : state) : Prop :=
  exists evs o, run init evs = Some (s, o).


(** ** Authentication middleware

    [io.use] runs before any handler is reachable.  The verifier of
    Firebase is an argument: it throws, or returns the decoded token, the
    claims [email], [name] and [role] of which may be absent. *)

Module DecodedToken.
Record t := Make {
  uid : string;
  email : option string;
  name : option string;
  role : option string
}.
End DecodedToken.

Inductive verification :=
| VerifyThrows
| Decoded (d : DecodedToken.t).

Inductive refusal :=
| TokenMissing      (* 'Token d'authentification manquant' *)
| TokenInvalid.     (* 'Token invalide ou expire' *)

Inductive admission :=
| Refused (e : refusal)     (* next(new Error(...)) *)
| Accepted (u : user).      (* socket.user = ...; next() *)

Inductive authlog :=
| LogVerifyError
| LogConnected (u r : string).

(** A string that may be [undefined] is falsy when it is [undefined] or
    empty. *)
Definition falsy (o : option string) : bool :=
  match o with
  | None => true
  | Some x => String.eqb x ""
  end.

(** [x || y] *)
Definition js_or (x y : option string) : option string :=
  if falsy x then y else x.

(** [x || 'literal'] *)
Definition js_or_literal (x : option string) (literal : string) : string :=
  match x with
  | None => literal
  | Some v => if String.eqb v "" then literal else v
  end.

(** [email.split('@')[0]] *)
Fixpoint before_at (x : string) : string :=
  match x with
  | EmptyString => EmptyString
  | String a x' => if Ascii.eqb a "@" then EmptyString else String a (before_at x')
  end.

(** [user.email] is a string in the data model: an absent [email] claim
    is kept as the empty string.  No handler reads the field. *)
Definition middleware (token : option string) (verifyIdToken : string -> verification)
    : list authlog * admission :=
  if falsy token then ([], Refused TokenMissing)
  else
    match token with
    | None => ([], Refused TokenMissing)
    | Some tk =>
        match verifyIdToken tk with
        | VerifyThrows => ([LogVerifyError], Refused TokenInvalid)
        | Decoded d =>
            ([], Accepted
                   {| uid := DecodedToken.uid d;
                      email := match DecodedToken.email d with Some m => m | None => "" end;
                      user_name :=
                        js_or_literal
                          (js_or (DecodedToken.name d) (before_at <$> DecodedToken.email d))
                          "Anonyme";
                      role := js_or_literal (DecodedToken.role d) "student" |})
        end
    end.

(** A connection attempt: the middleware, then the [connection] listener
    that logs the user and registers the handlers on the socket [id]. *)
Definition connect (id : nat) (token : option string)
    (verifyIdToken : string -> verification) : list authlog * option socket :=
  match middleware token verifyIdToken with
  | (l, Refused _) => (l, None)
  | (l, Accepted u) =>
      (l ++ [LogConnected (uid u) (role u)], Some {| sid := id; socket_user := u |})
  end.

(** ** More observations *)

(** The connection an event comes from. *)
Definition caller (e : event) : socket :=
  match e with
  | EvCreateLive sock _ _ _ => sock
  | EvJoinLive sock _ => sock
  | EvNextQuestion sock _ => sock
  | EvSubmitAnswer sock _ _ => sock
  | EvEndLive sock _ => sock
  | EvDisconnect sock _ => sock
  end.

Definition is_callback (e : effect) : bool :=
  match e with Callback _ _ => true | _ => false end.

(** The acknowledgements among the messages. *)
Definition callbacks (o : list effect) : list effect := List.filter is_callback o.

(** The question and index of a [newQuestion] message, however sent. *)
Definition question_sent (e : effect) : option (option question * Z) :=
  match e with
  | IoTo _ (newQuestion q i) => Some (q, i)
  | SocketEmit _ (newQuestion q i) => Some (q, i)
  | SocketTo _ _ (newQuestion q i) => Some (q, i)
  | _ => None
  end.

(** A registry entry as [createLive] makes it: filed under its own code,
    a code of the generator, hosted by a teacher who owns the quiz. *)
Definition well_formed_entry (kr : string * room) : Prop :=
  code (snd kr) = fst kr /\
  String.prefix "QZ-" (fst kr) = true /\
  toUpperCase (fst kr) = fst kr /\
  role (socket_user (hostSocket (snd kr))) = "teacher"%string /\
  ownerUid (quiz (snd kr)) = uid (socket_user (hostSocket (snd kr))).

Definition scores_nonneg (s : state) : Prop :=
  Forall (fun kr : string * room =>
            forall u p, participants (snd kr) !! u = Some p -> 0 <= score p)
         (liveRooms s).

(** The answers stored in a session are for questions already sent, or
    stored under -1. *)
Definition answers_in_range (kr : string * room) : Prop :=
  0 <= currentIndex (snd kr) /\
  forall u p k a,
    participants (snd kr) !! u = Some p -> answers p !! k = Some a ->
    -1 <= k < currentIndex (snd kr).

(** What handling the event [e] in the state [s] can make of the
    registry, handler by handler. *)
Inductive handled (s : state) : event -> list (string * room) -> Prop :=
| handled_unchanged e :
    handled s e (liveRooms s)
| handled_create sock qid d draws c :
    freshCode draws (liveRooms s) = Some c ->
    role (socket_user sock) = "teacher"%string ->
    ownerUid d = uid (socket_user sock) ->
    handled s (EvCreateLive sock qid (Doc d) draws)
      (JsMap.set c {| code := c; hostSocket := sock; quizId := qid; quiz := d;
                      currentIndex := 0; participants := ∅ |} (liveRooms s))
| handled_join sock c r :
    JsMap.get (toUpperCase c) (liveRooms s) = Some r ->
    handled s (EvJoinLive sock c)
      (JsMap.mutate (toUpperCase c)
         (with_participant (uid (socket_user sock))
            {| name := user_name (socket_user sock); score := 0; answers := ∅ |})
         (liveRooms s))
| handled_advance sock c r :
    JsMap.get c (liveRooms s) = Some r ->
    currentIndex r < Z.of_nat (length (questions (quiz r))) ->
    handled s (EvNextQuestion sock c) (JsMap.mutate c advance (liveRooms s))
| handled_answer sock c a r p p' :
    JsMap.get c (liveRooms s) = Some r ->
    participants r !! uid (socket_user sock) = Some p ->
    name p' = name p ->
    score p <= score p' <= score p + 1 ->
    answers p' = <[currentIndex r - 1 := a]> (answers p) ->
    handled s (EvSubmitAnswer sock c a)
      (JsMap.mutate c (with_participant (uid (socket_user sock)) p') (liveRooms s))
| handled_delete e c :
    In c (map fst (liveRooms s)) ->
    (forall sock c', e <> EvJoinLive sock c') ->
    (forall sock c' a, e <> EvSubmitAnswer sock c' a) ->
    handled s e (JsMap.delete c (liveRooms s)).

(** Alice has answered question 0 correctly. *)
Definition answered : state := st (submitAnswer question0_sent alice "QZ-ABC123" 1).

(** The events that lead to [answered]. *)
Definition answered_trace : list event :=
  [EvCreateLive teacher "quiz-2" (Doc quiz2) ["abc123"];
   EvJoinLive alice "QZ-ABC123";
   EvNextQuestion teacher "QZ-ABC123";
   EvSubmitAnswer alice "QZ-ABC123" 1].

(** The room of the running example, at its creation, and Alice as she
    joins. *)
Definition room0 : room :=
  {| code := "QZ-ABC123"; hostSocket := teacher; quizId := "quiz-2";
     quiz := quiz2; currentIndex := 0; participants := ∅ |}.

Definition alice0 : participant := {| name := "Alice"; score := 0; answers := ∅ |}.

(** ** Lemmas on [JsMap] *)

Module JsMapFacts.
Section Facts.
Context {V : Type}.
Implicit Types (m : list (string * V)) (k : string).

Lemma get_set_eq k v m : JsMap.get k (JsMap.set k v m) = Some v.
Proof.
  induction m as [|[k' v'] m IH]; simpl.
  - by rewrite String.eqb_refl.
  - destruct (String.eqb_spec k k') as [->|Hne]; simpl.
    + by rewrite String.eqb_refl.
    + destruct (String.eqb_spec k k'); [done | exact IH].
Qed.

Lemma get_set_ne k k' v m : k ≠ k' -> JsMap.get k' (JsMap.set k v m) = JsMap.get k' m.
Proof.
  intros Hne. induction m as [|[k0 v0] m IH]; simpl.
  - destruct (String.eqb_spec k' k); [congruence | done].
  - destruct (String.eqb_spec k k0) as [->|Hk]; simpl.
    + destruct (String.eqb_spec k' k0); [congruence | done].
    + destruct (String.eqb_spec k' k0); [done | exact IH].
Qed.

Lemma get_delete_eq k m : JsMap.get k (JsMap.delete k m) = None.
Proof.
  induction m as [|[k' v'] m IH]; simpl; [done|].
  destruct (String.eqb_spec k k') as [->|Hne]; [exact IH|].
  simpl. destruct (String.eqb_spec k k'); [done | exact IH].
Qed.

Lemma get_delete_ne k k' m : k ≠ k' -> JsMap.get k' (JsMap.delete k m) = JsMap.get k' m.
Proof.
  intros Hne. induction m as [|[k0 v0] m IH]; simpl; [done|].
  destruct (String.eqb_spec k k0) as [->|Hk]; simpl.
  - destruct (String.eqb_spec k' k0); [congruence | exact IH].
  - destruct (String.eqb_spec k' k0); [done | exact IH].
Qed.

Lemma delete_absent k m : JsMap.get k m = None -> JsMap.delete k m = m.
Proof.
  induction m as [|[k' v'] m IH]; simpl; [done|].
  destruct (String.eqb_spec k k'); [done|]. intros H. by rewrite IH.
Qed.

Lemma get_mutate_eq k f m : JsMap.get k (JsMap.mutate k f m) = f <$> JsMap.get k m.
Proof.
  induction m as [|[k' v'] m IH]; simpl; [done|].
  destruct (String.eqb_spec k k') as [->|Hne]; simpl.
  - by rewrite String.eqb_refl.
  - destruct (String.eqb_spec k k'); [done | exact IH].
Qed.

Lemma get_mutate_ne k k' f m : k ≠ k' -> JsMap.get k' (JsMap.mutate k f m) = JsMap.get k' m.
Proof.
  intros Hne. induction m as [|[k0 v0] m IH]; simpl; [done|].
  destruct (String.eqb_spec k k0) as [->|Hk]; simpl.
  - destruct (String.eqb_spec k' k0); [congruence | done].
  - destruct (String.eqb_spec k' k0); [done | exact IH].
Qed.

Lemma get_In k v m : JsMap.get k m = Some v -> In (k, v) m.
Proof.
  induction m as [|[k' v'] m IH]; simpl; [done|].
  destruct (String.eqb_spec k k') as [->|Hne].
  - intros [= ->]. by left.
  - intros H. right. by apply IH.
Qed.

Lemma keys_delete k m x : In x (map fst (JsMap.delete k m)) -> In x (map fst m).
Proof.
  induction m as [|[k' v'] m IH]; simpl; [done|].
  destruct (String.eqb_spec k k'); simpl.
  - intros H. right. by apply IH.
  - intros [<-|H]; [by left | right; by apply IH].
Qed.

Lemma keys_mutate k f m : map fst (JsMap.mutate k f m) = map fst m.
Proof.
  induction m as [|[k' v'] m IH]; simpl; [done|].
  destruct (String.eqb_spec k k'); simpl; [done | by rewrite IH].
Qed.

Lemma Forall_set (P : string * V -> Prop) k v m :
  P (k, v) -> Forall P m -> Forall P (JsMap.set k v m).
Proof.
  intros Hv. induction 1 as [|[k' v'] m Hx Hm IH]; simpl.
  - by constructor.
  - destruct (String.eqb_spec k k'); constructor; done.
Qed.

Lemma Forall_delete (P : string * V -> Prop) k m :
  Forall P m -> Forall P (JsMap.delete k m).
Proof.
  induction 1 as [|[k' v'] m Hx Hm IH]; simpl; [done|].
  destruct (String.eqb_spec k k'); [done | by constructor].
Qed.

(** [f] is applied to the value that [get] returns, and to no other. *)
Lemma Forall_mutate (P : string * V -> Prop) k f m :
  (forall v, JsMap.get k m = Some v -> P (k, v) -> P (k, f v)) ->
  Forall P m -> Forall P (JsMap.mutate k f m).
Proof.
  intros Hf H. induction H as [|[k' v'] m Hx Hm IH]; simpl; [done|].
  simpl in Hf. destruct (String.eqb_spec k k') as [->|Hne].
  - constructor; [|done]. by apply Hf.
  - constructor; [done|]. by apply IH.
Qed.
End Facts.
End JsMapFacts.

Import JsMapFacts.

(** ** Host-only events *)

Lemma same_socket_false a b : sid a <> sid b -> same_socket a b = false.
Proof. intros H. unfold same_socket. by apply Nat.eqb_neq. Qed.

(** C6.  A [nextQuestion] or an [endLive] sent by a connection that is not
    the host of the addressed session is ignored: the handler returns the
    state it was given (same [currentIndex], same participants, same
    registry) and sends nothing at all, neither a broadcast nor a reply. *)
Theorem non_host_is_ignored (s : state) (sock : socket) (c : string) (r : room) :
  JsMap.get c (liveRooms s) = Some r ->
  sid (hostSocket r) <> sid sock ->
  nextQuestion s sock c = {| st := s; out := []; threw := false |} /\
  endLive s sock c = {| st := s; out := []; threw := false |}.
Proof.
  intros Hget Hhost. unfold nextQuestion, endLive.
  rewrite Hget, (same_socket_false _ _ Hhost). by split.
Qed.

Lemma non_host_is_ignored_witness :
  nextQuestion lobby_alice alice "QZ-ABC123" = {| st := lobby_alice; out := []; threw := false |} /\
  endLive lobby_alice alice "QZ-ABC123" = {| st := lobby_alice; out := []; threw := false |}.
Proof.
  apply (non_host_is_ignored lobby_alice alice "QZ-ABC123"
           (with_participant "a1" {| name := "Alice"; score := 0; answers := ∅ |}
              {| code := "QZ-ABC123"; hostSocket := teacher; quizId := "quiz-2";
                 quiz := quiz2; currentIndex := 0; participants := ∅ |})).
  - reflexivity.
  - simpl. lia.
Defined.

(** ** Failure paths of [createLive] *)

(** C7.  When [createLive] fails (the caller is not a teacher, the fetch
    throws, the quiz does not exist, or it belongs to somebody else) the
    handler returns normally with the state untouched: no session is
    registered, no group is joined, and no code is drawn (the result is
    the same with no random draw at all).  The error goes to the caller's
    acknowledgement and nowhere else. *)
Theorem createLive_failure_is_clean (s : state) (sock : socket) (qid : string)
    (f : fetched) (draws : list string) :
  createLive_fails sock f ->
  exists (r : result) (e : error),
    createLive s sock qid f draws = Some r /\
    st r = s /\ threw r = false /\
    error_to_caller_only sock e (out r) /\
    createLive s sock qid f [] = Some r.
Proof.
  intros Hfail. unfold createLive.
  destruct (String.eqb_spec (role (socket_user sock)) "teacher") as [Hrole|Hrole]; simpl.
  - destruct Hfail as [Hr|[->|[->|[d [-> Hown]]]]]; [done| | |].
    + eexists _, ServerError. repeat split; by right.
    + eexists _, QuizNotFound. repeat split; by left.
    + destruct (String.eqb_spec (ownerUid d) (uid (socket_user sock))); [done|]. simpl.
      eexists _, NotOwner. repeat split; by left.
  - eexists _, NotTeacher. repeat split; by left.
Qed.

Lemma createLive_failure_is_clean_witness :
  exists (r : result) (e : error),
    createLive lobby alice "quiz-2" (Doc quiz2) ["zzz999"] = Some r /\
    st r = lobby /\ threw r = false /\
    error_to_caller_only alice e (out r) /\
    createLive lobby alice "quiz-2" (Doc quiz2) [] = Some r.
Proof.
  apply (createLive_failure_is_clean lobby alice "quiz-2" (Doc quiz2) ["zzz999"]).
  left. simpl. discriminate.
Defined.

(** ** Answers *)

Lemma submitAnswer_processed (s : state) (sock : socket) (c : string) (a : Z)
    (r : room) (p : participant) (q : question) :
  JsMap.get c (liveRooms s) = Some r ->
  participants r !! uid (socket_user sock) = Some p ->
  question_at (questions (quiz r)) (currentIndex r - 1) = Some q ->
  submitAnswer s sock c a =
    let p1 := record_answer (currentIndex r - 1) a p in
    let p2 := if includes a (correct q) then increment_score p1 else p1 in
    {| st := {| liveRooms :=
                  JsMap.mutate c (with_participant (uid (socket_user sock)) p2) (liveRooms s);
                joined := joined s |};
       out := [SocketEmit (sid (hostSocket r))
                 (answerReceived (name p) (Some (includes a (correct q))));
               SocketTo (sid sock) c (answerReceived (name p) None)];
       threw := false |}.
Proof.
  intros Hget Hp Hq. unfold submitAnswer. rewrite Hget, Hp, Hq. simpl.
  by destruct (includes a (correct q)).
Qed.

(** C8.  The message that [submitAnswer] sends to the group carries the
    participant's name and no correctness field, and is the same whatever
    the answer: two submissions in the same state that differ only in the
    answer, one correct and one not, are indistinguishable for the peers.
    Only the message emitted to the host socket has the flag. *)
Theorem peers_do_not_learn_correctness (s : state) (sock : socket) (c : string)
    (a1 a2 : Z) (r : room) (p : participant) (q : question) :
  JsMap.get c (liveRooms s) = Some r ->
  participants r !! uid (socket_user sock) = Some p ->
  question_at (questions (quiz r)) (currentIndex r - 1) = Some q ->
  peer_visible (out (submitAnswer s sock c a1)) =
    [SocketTo (sid sock) c (answerReceived (name p) None)] /\
  peer_visible (out (submitAnswer s sock c a1)) =
    peer_visible (out (submitAnswer s sock c a2)) /\
  out (submitAnswer s sock c a1) =
    [SocketEmit (sid (hostSocket r))
       (answerReceived (name p) (Some (includes a1 (correct q))));
     SocketTo (sid sock) c (answerReceived (name p) None)].
Proof.
  intros Hget Hp Hq.
  rewrite (submitAnswer_processed s sock c a1 r p q Hget Hp Hq).
  rewrite (submitAnswer_processed s sock c a2 r p q Hget Hp Hq).
  done.
Qed.

Lemma peers_do_not_learn_correctness_witness :
  peer_visible (out (submitAnswer question0_sent alice "QZ-ABC123" 1)) =
    [SocketTo 2 "QZ-ABC123" (answerReceived "Alice" None)] /\
  peer_visible (out (submitAnswer question0_sent alice "QZ-ABC123" 1)) =
    peer_visible (out (submitAnswer question0_sent alice "QZ-ABC123" 0)) /\
  out (submitAnswer question0_sent alice "QZ-ABC123" 1) =
    [SocketEmit 1 (answerReceived "Alice" (Some true));
     SocketTo 2 "QZ-ABC123" (answerReceived "Alice" None)].
Proof.
  apply (peers_do_not_learn_correctness question0_sent alice "QZ-ABC123" 1 0
           (advance (with_participant "a1" {| name := "Alice"; score := 0; answers := ∅ |}
              {| code := "QZ-ABC123"; hostSocket := teacher; quizId := "quiz-2";
                 quiz := quiz2; currentIndex := 0; participants := ∅ |}))
           {| name := "Alice"; score := 0; answers := ∅ |}
           {| content := "2 + 2 ?"; correct := [1] |}).
  - reflexivity.
  - vm_compute. reflexivity.
  - reflexivity.
Defined.

(** ** Scoring *)

Lemma submitAnswer_keeps_room (s : state) (sock : socket) (c : string) (a : Z)
    (r : room) (p : participant) (q : question) :
  JsMap.get c (liveRooms s) = Some r ->
  participants r !! uid (socket_user sock) = Some p ->
  question_at (questions (quiz r)) (currentIndex r - 1) = Some q ->
  includes a (correct q) = true ->
  JsMap.get c (liveRooms (st (submitAnswer s sock c a))) =
    Some (with_participant (uid (socket_user sock))
            (increment_score (record_answer (currentIndex r - 1) a p)) r).
Proof.
  intros Hget Hp Hq Hin.
  rewrite (submitAnswer_processed s sock c a r p q Hget Hp Hq). simpl.
  by rewrite get_mutate_eq, Hget, Hin.
Qed.

Lemma score_of_known (s : state) (c u : string) (r : room) (p : participant) :
  JsMap.get c (liveRooms s) = Some r -> participants r !! u = Some p ->
  score_of s c u = Some (score p).
Proof. intros Hget Hp. unfold score_of, participant_of. by rewrite Hget, Hp. Qed.

Lemma resubmission_scores (sock : socket) (c : string) (a : Z) (q : question) (n : nat) :
  includes a (correct q) = true ->
  forall (s : state) (r : room) (p : participant),
    JsMap.get c (liveRooms s) = Some r ->
    participants r !! uid (socket_user sock) = Some p ->
    question_at (questions (quiz r)) (currentIndex r - 1) = Some q ->
    score_of (repeat_call (fun s' => submitAnswer s' sock c a) n s) c (uid (socket_user sock))
      = Some (score p + Z.of_nat n).
Proof.
  intros Hin. induction n as [|n IH]; intros s r p Hget Hp Hq.
  - simpl. rewrite (score_of_known s c _ r p Hget Hp). f_equal. lia.
  - cbn [repeat_call].
    pose proof (submitAnswer_keeps_room s sock c a r p q Hget Hp Hq Hin) as Hget'.
    rewrite (IH _ _ (increment_score (record_answer (currentIndex r - 1) a p)) Hget').
    + simpl. f_equal. lia.
    + simpl. apply lookup_insert_eq.
    + exact Hq.
Qed.

(** C1, as the code has it.  Every [submitAnswer] whose answer is among
    the correct ones of the current question adds exactly 1 to the
    score of the participant, also when that question was answered
    before: [n] such submissions in a row add [n]. *)
Theorem every_correct_submission_scores (s : state) (sock : socket) (c : string)
    (a : Z) (r : room) (p : participant) (q : question) (n : nat) :
  JsMap.get c (liveRooms s) = Some r ->
  participants r !! uid (socket_user sock) = Some p ->
  question_at (questions (quiz r)) (currentIndex r - 1) = Some q ->
  includes a (correct q) = true ->
  score_of (st (submitAnswer s sock c a)) c (uid (socket_user sock)) = Some (score p + 1) /\
  score_of (repeat_call (fun s' => submitAnswer s' sock c a) n s) c (uid (socket_user sock))
    = Some (score p + Z.of_nat n).
Proof.
  intros Hget Hp Hq Hin. split.
  - apply (resubmission_scores sock c a q 1 Hin s r p Hget Hp Hq).
  - apply (resubmission_scores sock c a q n Hin s r p Hget Hp Hq).
Qed.

Lemma every_correct_submission_scores_witness :
  score_of (st (submitAnswer question0_sent alice "QZ-ABC123" 1)) "QZ-ABC123" "a1"
    = Some (0 + 1) /\
  score_of (repeat_call (fun s' => submitAnswer s' alice "QZ-ABC123" 1) 3 question0_sent)
      "QZ-ABC123" "a1"
    = Some (0 + Z.of_nat 3).
Proof.
  apply (every_correct_submission_scores question0_sent alice "QZ-ABC123" 1
           (advance (with_participant "a1" {| name := "Alice"; score := 0; answers := ∅ |}
              {| code := "QZ-ABC123"; hostSocket := teacher; quizId := "quiz-2";
                 quiz := quiz2; currentIndex := 0; participants := ∅ |}))
           {| name := "Alice"; score := 0; answers := ∅ |}
           {| content := "2 + 2 ?"; correct := [1] |} 3).
  - reflexivity.
  - vm_compute. reflexivity.
  - reflexivity.
  - reflexivity.
Defined.

(** C1, as stated, fails: Alice sends the correct answer 1 to question 0
    twice, and her score for that one question goes from 0 to 2. *)
Lemma second_submission_scores_again :
  let once := st (submitAnswer question0_sent alice "QZ-ABC123" 1) in
  let twice := st (submitAnswer once alice "QZ-ABC123" 1) in
  (currentIndex <$> JsMap.get "QZ-ABC123" (liveRooms question0_sent)) = Some 1 /\
  (currentIndex <$> JsMap.get "QZ-ABC123" (liveRooms once)) = Some 1 /\
  (correct <$> question_at (questions quiz2) 0) = Some [1] /\
  score_of question0_sent "QZ-ABC123" "a1" = Some 0 /\
  score_of once "QZ-ABC123" "a1" = Some 1 /\
  score_of twice "QZ-ABC123" "a1" = Some 2.
Proof. vm_compute. repeat split; reflexivity. Qed.

(** ** An answer before the first question *)

Lemma submitAnswer_at_index_zero (s : state) (sock : socket) (c : string) (a : Z)
    (r : room) (p : participant) :
  JsMap.get c (liveRooms s) = Some r ->
  participants r !! uid (socket_user sock) = Some p ->
  currentIndex r = 0 ->
  submitAnswer s sock c a =
    {| st := {| liveRooms :=
                  JsMap.mutate c
                    (with_participant (uid (socket_user sock)) (record_answer (-1) a p))
                    (liveRooms s);
                joined := joined s |};
       out := [];
       threw := true |}.
Proof.
  intros Hget Hp H0. unfold submitAnswer. rewrite Hget, Hp, H0. reflexivity.
Qed.

(** C2, on the code: with [currentIndex = 0] the handler does not drop the
    event.  It stores the answer under the index -1 in the participant's
    answers, then throws on [question.correct], the question at -1 being
    undefined.  [joinLive] guards the same access with
    [room.currentIndex > 0]: a joiner in the lobby gets no question. *)
Theorem submitAnswer_in_lobby_throws :
  let r := submitAnswer lobby_alice alice "QZ-ABC123" 1 in
  (currentIndex <$> JsMap.get "QZ-ABC123" (liveRooms lobby_alice)) = Some 0 /\
  (answers <$> participant_of lobby_alice "QZ-ABC123" "a1") = Some ∅ /\
  threw r = true /\
  out r = [] /\
  (answers <$> participant_of (st r) "QZ-ABC123" "a1") = Some {[ -1 := 1 ]} /\
  out (joinLive lobby bob "QZ-ABC123") =
    [SocketEmit 1 (studentJoined "Bob" 1);
     SocketTo 3 "QZ-ABC123" (studentJoined "Bob" 1);
     Console (LogJoined "Bob" "QZ-ABC123");
     Callback 3 ReplySuccess].
Proof. vm_compute. repeat split; reflexivity. Qed.

(** ** From creation to the end of the quiz *)

Lemma same_socket_refl a : same_socket a a = true.
Proof. unfold same_socket. apply Nat.eqb_refl. Qed.

(** What a successful [createLive] did, read off the code it replied. *)
Lemma createLive_replied_code (s : state) (sock : socket) (qid : string) (f : fetched)
    (draws : list string) (res : result) (c : string) :
  createLive s sock qid f draws = Some res ->
  In (Callback (sid sock) (ReplyCode c)) (out res) ->
  exists d,
    f = Doc d /\
    freshCode draws (liveRooms s) = Some c /\
    res = {| st := {| liveRooms :=
                        JsMap.set c
                          {| code := c; hostSocket := sock; quizId := qid; quiz := d;
                             currentIndex := 0; participants := ∅ |}
                          (liveRooms s);
                      joined := {[ (sid sock, c) ]} ∪ joined s |};
             out := [Console (LogLiveCreated (uid (socket_user sock)) c);
                     Callback (sid sock) (ReplyCode c);
                     SocketEmit (sid sock) (liveCreated c)];
             threw := false |}.
Proof.
  unfold createLive.
  destruct (negb _).
  { intros [= <-]. simpl. intros [H|[]]. discriminate. }
  destruct f as [| |d].
  - intros [= <-]. simpl. intros [H|[H|[]]]; discriminate.
  - intros [= <-]. simpl. intros [H|[]]. discriminate.
  - destruct (negb _).
    { intros [= <-]. simpl. intros [H|[]]. discriminate. }
    destruct (freshCode draws (liveRooms s)) as [c'|]; [|done].
    intros [= <-]. simpl. intros [H|[H|[H|[]]]]; try discriminate.
    injection H as ->. by exists d.
Qed.

Lemma nextQuestion_sends (s : state) (sock : socket) (c : string) (r : room) :
  JsMap.get c (liveRooms s) = Some r ->
  hostSocket r = sock ->
  currentIndex r < Z.of_nat (length (questions (quiz r))) ->
  nextQuestion s sock c =
    {| st := {| liveRooms := JsMap.mutate c advance (liveRooms s); joined := joined s |};
       out := [IoTo c (newQuestion (question_at (questions (quiz r)) (currentIndex r))
                                   (currentIndex r));
               Console (LogQuestionSent (currentIndex r + 1) c)];
       threw := false |}.
Proof.
  intros Hget <- Hlt. unfold nextQuestion. rewrite Hget, same_socket_refl. simpl.
  destruct (Z.leb_spec (Z.of_nat (length (questions (quiz r)))) (currentIndex r)); [lia|].
  by replace (currentIndex r + 1 - 1) with (currentIndex r) by lia.
Qed.

Lemma nextQuestion_ends (s : state) (sock : socket) (c : string) (r : room) :
  JsMap.get c (liveRooms s) = Some r ->
  hostSocket r = sock ->
  Z.of_nat (length (questions (quiz r))) <= currentIndex r ->
  nextQuestion s sock c =
    {| st := {| liveRooms := JsMap.delete c (liveRooms s); joined := joined s |};
       out := [IoTo c (liveEnded quiz_completed); Console (LogQuizFinished c)];
       threw := false |}.
Proof.
  intros Hget <- Hle. unfold nextQuestion. rewrite Hget, same_socket_refl. simpl.
  by destruct (Z.leb_spec (Z.of_nat (length (questions (quiz r)))) (currentIndex r)); [|lia].
Qed.

Lemma nextQuestion_unknown (s : state) (sock : socket) (c : string) :
  JsMap.get c (liveRooms s) = None -> nextQuestion s sock c = ignored s.
Proof. intros Hget. unfold nextQuestion. by rewrite Hget. Qed.

Lemma nextQuestion_repeated (sock : socket) (c : string) (n : nat) :
  forall (s : state) (r : room),
    JsMap.get c (liveRooms s) = Some r ->
    hostSocket r = sock ->
    currentIndex r + Z.of_nat n <= Z.of_nat (length (questions (quiz r))) ->
    exists r',
      JsMap.get c (liveRooms (repeat_call (fun s' => nextQuestion s' sock c) n s)) = Some r' /\
      currentIndex r' = currentIndex r + Z.of_nat n /\
      quiz r' = quiz r /\ hostSocket r' = sock.
Proof.
  induction n as [|n IH]; intros s r Hget Hhost Hle.
  - exists r. simpl. repeat split; [done | lia | done].
  - cbn [repeat_call].
    rewrite (nextQuestion_sends s sock c r Hget Hhost) by lia. simpl.
    destruct (IH {| liveRooms := JsMap.mutate c advance (liveRooms s); joined := joined s |}
                 (advance r)) as (r' & Hget' & Hidx & Hquiz & Hhost').
    + simpl. by rewrite get_mutate_eq, Hget.
    + exact Hhost.
    + simpl. lia.
    + exists r'. repeat split; [done | simpl in Hidx; lia | done | done].
Qed.

Lemma question_at_nat (qs : list question) (i : nat) :
  question_at qs (Z.of_nat i) = qs !! i.
Proof.
  unfold question_at. destruct (Z.ltb_spec (Z.of_nat i) 0); [lia|]. by rewrite Nat2Z.id.
Qed.

(** The output of the call of [nextQuestion] that follows [i] earlier
    calls on a session just created. *)
Lemma fresh_session_call_output (s : state) (sock : socket) (qid : string)
    (d : quizData) (draws : list string) (res : result) (c : string)
    (i : nat) (q : question) :
  createLive s sock qid (Doc d) draws = Some res ->
  In (Callback (sid sock) (ReplyCode c)) (out res) ->
  questions d !! i = Some q ->
  out (nextQuestion (repeat_call (fun s' => nextQuestion s' sock c) i (st res)) sock c) =
    [IoTo c (newQuestion (Some q) (Z.of_nat i));
     Console (LogQuestionSent (Z.of_nat i + 1) c)].
Proof.
  intros Hcreate Hreply Hq.
  destruct (createLive_replied_code _ _ _ _ _ _ _ Hcreate Hreply) as (d' & [= <-] & _ & ->).
  pose proof (lookup_lt_Some _ _ _ Hq) as Hlt.
  destruct (nextQuestion_repeated sock c i
              {| liveRooms := JsMap.set c
                   {| code := c; hostSocket := sock; quizId := qid; quiz := d;
                      currentIndex := 0; participants := ∅ |} (liveRooms s);
                 joined := {[ (sid sock, c) ]} ∪ joined s |}
              {| code := c; hostSocket := sock; quizId := qid; quiz := d;
                 currentIndex := 0; participants := ∅ |})
    as (r & Hget & Hidx & Hquiz & Hhost).
  { simpl. apply get_set_eq. }
  { done. }
  { simpl. lia. }
  cbn [currentIndex quiz] in Hidx, Hquiz. rewrite Z.add_0_l in Hidx. cbn [st].
  rewrite (nextQuestion_sends _ sock c r Hget Hhost) by (rewrite Hquiz, Hidx; lia).
  cbn [out]. by rewrite Hquiz, Hidx, question_at_nat, Hq.
Qed.

(** C3, as the code has it.  On a session just created, the host's first
    [len(questions)] calls of [nextQuestion] each broadcast a question,
    the call numbered [i + 1] the question at position [i]: after
    them the session is still registered, with [currentIndex] equal to
    [len(questions)].  It is the next call, the one numbered
    [len(questions) + 1], that broadcasts [liveEnded] (quiz completed)
    and deletes the session; a further call finds no session and does
    nothing. *)
Theorem quiz_ends_one_call_after_last_question (s : state) (sock : socket) (qid : string)
    (d : quizData) (draws : list string) (res : result) (c : string) :
  createLive s sock qid (Doc d) draws = Some res ->
  In (Callback (sid sock) (ReplyCode c)) (out res) ->
  let next := fun s' => nextQuestion s' sock c in
  let n := length (questions d) in
  let s_n := repeat_call next n (st res) in
  let last := next s_n in
  (forall i, (i < n)%nat ->
     exists q,
       questions d !! i = Some q /\
       out (next (repeat_call next i (st res))) =
         [IoTo c (newQuestion (Some q) (Z.of_nat i));
          Console (LogQuestionSent (Z.of_nat i + 1) c)]) /\
  (exists r, JsMap.get c (liveRooms s_n) = Some r /\ currentIndex r = Z.of_nat n) /\
  out last = [IoTo c (liveEnded quiz_completed); Console (LogQuizFinished c)] /\
  JsMap.get c (liveRooms (st last)) = None /\
  next (st last) = {| st := st last; out := []; threw := false |}.
Proof.
  intros Hcreate Hreply next n s_n last.
  split.
  { intros i Hi. destruct (lookup_lt_is_Some_2 (questions d) i Hi) as [q Hq].
    exists q. split; [done|].
    by apply (fresh_session_call_output s sock qid d draws res c i q). }
  destruct (createLive_replied_code _ _ _ _ _ _ _ Hcreate Hreply) as (d' & [= <-] & _ & ->).
  destruct (nextQuestion_repeated sock c n
              (st {| st := {| liveRooms := JsMap.set c
                                {| code := c; hostSocket := sock; quizId := qid; quiz := d;
                                   currentIndex := 0; participants := ∅ |} (liveRooms s);
                              joined := {[ (sid sock, c) ]} ∪ joined s |};
                     out := [Console (LogLiveCreated (uid (socket_user sock)) c);
                             Callback (sid sock) (ReplyCode c);
                             SocketEmit (sid sock) (liveCreated c)];
                     threw := false |})
              {| code := c; hostSocket := sock; quizId := qid; quiz := d;
                 currentIndex := 0; participants := ∅ |})
    as (r & Hget & Hidx & Hquiz & Hhost).
  { simpl. apply get_set_eq. }
  { done. }
  { simpl. lia. }
  fold next in Hget. fold s_n in Hget. simpl in Hidx, Hquiz.
  assert (Hlast : last = {| st := {| liveRooms := JsMap.delete c (liveRooms s_n);
                                     joined := joined s_n |};
                            out := [IoTo c (liveEnded quiz_completed);
                                    Console (LogQuizFinished c)];
                            threw := false |}).
  { apply (nextQuestion_ends s_n sock c r Hget Hhost). rewrite Hquiz. fold n. lia. }
  split; [exists r; split; [done | lia] |].
  rewrite Hlast. simpl. split; [done|]. split; [apply get_delete_eq|].
  unfold next. rewrite nextQuestion_unknown; [done|]. simpl. apply get_delete_eq.
Qed.

Lemma quiz_ends_one_call_after_last_question_witness :
  let next := fun s' => nextQuestion s' teacher "QZ-ABC123" in
  let n := length (questions quiz2) in
  let s_n := repeat_call next n lobby in
  let last := next s_n in
  (forall i, (i < n)%nat ->
     exists q,
       questions quiz2 !! i = Some q /\
       out (next (repeat_call next i lobby)) =
         [IoTo "QZ-ABC123" (newQuestion (Some q) (Z.of_nat i));
          Console (LogQuestionSent (Z.of_nat i + 1) "QZ-ABC123")]) /\
  (exists r, JsMap.get "QZ-ABC123" (liveRooms s_n) = Some r /\ currentIndex r = Z.of_nat n) /\
  out last = [IoTo "QZ-ABC123" (liveEnded quiz_completed);
              Console (LogQuizFinished "QZ-ABC123")] /\
  JsMap.get "QZ-ABC123" (liveRooms (st last)) = None /\
  next (st last) = {| st := st last; out := []; threw := false |}.
Proof.
  apply (quiz_ends_one_call_after_last_question init teacher "quiz-2" quiz2 ["abc123"]
           {| st := lobby;
              out := [Console (LogLiveCreated "t1" "QZ-ABC123");
                      Callback 1 (ReplyCode "QZ-ABC123");
                      SocketEmit 1 (liveCreated "QZ-ABC123")];
              threw := false |} "QZ-ABC123").
  - reflexivity.
  - simpl. right. left. reflexivity.
Defined.

(** C3, as stated, fails: for a quiz of one question, after exactly one
    [nextQuestion] the session is still in the registry, and that call
    broadcast the question, not the end of the live. *)
Lemma session_live_after_last_question :
  let s0 := state_of (createLive init teacher "quiz-1" (Doc quiz1) ["abc123"]) in
  let call := nextQuestion s0 teacher "QZ-ABC123" in
  length (questions quiz1) = 1%nat /\
  (currentIndex <$> JsMap.get "QZ-ABC123" (liveRooms s0)) = Some 0 /\
  out call = [IoTo "QZ-ABC123"
                (newQuestion (Some {| content := "2 + 2 ?"; correct := [1] |}) 0);
              Console (LogQuestionSent 1 "QZ-ABC123")] /\
  (currentIndex <$> JsMap.get "QZ-ABC123" (liveRooms (st call))) = Some 1 /\
  JsMap.get "QZ-ABC123" (liveRooms (st call)) <> None.
Proof. vm_compute. repeat split; try reflexivity. discriminate. Qed.

(** ** Letter case of the code *)

(** C4, on the code: only [joinLive] puts the code in upper case before
    the lookup.  With the live "QZ-ABC123" and the code typed
    "qz-abc123", [joinLive] finds the session, while [nextQuestion] and
    [endLive] from the host and [submitAnswer] from a participant find
    none and are ignored; with the code in upper case each one acts. *)
Theorem only_joinLive_normalises_case :
  toUpperCase "qz-abc123" = "QZ-ABC123"%string /\
  In (Callback 3 ReplySuccess) (out (joinLive lobby_alice bob "qz-abc123")) /\
  nextQuestion lobby_alice teacher "qz-abc123" = ignored lobby_alice /\
  endLive lobby_alice teacher "qz-abc123" = ignored lobby_alice /\
  submitAnswer question0_sent alice "qz-abc123" 1 = ignored question0_sent /\
  out (nextQuestion lobby_alice teacher "QZ-ABC123") <> [] /\
  out (endLive lobby_alice teacher "QZ-ABC123") <> [] /\
  out (submitAnswer question0_sent alice "QZ-ABC123" 1) <> [].
Proof.
  vm_compute. repeat split; try reflexivity; try discriminate.
  do 3 right. left. reflexivity.
Qed.

(** ** The bounds of [currentIndex] *)

Lemma freshCode_generated (draws : list string) (m : list (string * room)) (c : string) :
  freshCode draws m = Some c ->
  JsMap.get c m = None /\ exists rnd, In rnd draws /\ c = generateCode rnd.
Proof.
  induction draws as [|rnd draws IH]; simpl; [done|].
  unfold JsMap.has. destruct (JsMap.get (generateCode rnd) m) eqn:Hget.
  - intros H. destruct (IH H) as [Hc (x & Hx & ->)]. split; [done|]. exists x. by split; [right|].
  - intros [= <-]. split; [done|]. exists rnd. by split; [left|].
Qed.

Lemma get_key {V} (k : string) (v : V) (m : list (string * V)) :
  JsMap.get k m = Some v -> In k (map fst m).
Proof. intros H. apply (in_map fst _ _ (get_In k v m H)). Qed.

Lemma hosted_by_key (sock : socket) (m : list (string * room)) (c : string) :
  hosted_by sock m = Some c -> In c (map fst m).
Proof.
  induction m as [|[k r] m IH]; simpl; [done|].
  destruct (same_socket (hostSocket r) sock).
  - intros [= ->]. by left.
  - intros H. right. by apply IH.
Qed.

Lemma dispatch_change (s : state) (e : event) (res : result) :
  dispatch s e = Some res -> registry_change s (liveRooms (st res)).
Proof.
  destruct e as [sock qid f draws|sock c|sock c|sock c a|sock c|sock why]; simpl.
  - unfold createLive. destruct (negb _); [intros [= <-]; constructor|].
    destruct f as [| |d]; try (intros [= <-]; constructor).
    destruct (negb _); [intros [= <-]; constructor|].
    destruct (freshCode draws (liveRooms s)) as [c|] eqn:Hfresh; [|done].
    intros [= <-]. simpl.
    destruct (freshCode_generated _ _ _ Hfresh) as [Hnone (rnd & _ & Hc)].
    apply change_set; [done | by exists rnd | done].
  - intros [= <-]. unfold joinLive.
    destruct (JsMap.get (toUpperCase c) (liveRooms s)) as [r|] eqn:Hget; simpl.
    + apply (change_mutate s _ _ r Hget); [done | by left].
    + constructor.
  - intros [= <-]. unfold nextQuestion.
    destruct (JsMap.get c (liveRooms s)) as [r|] eqn:Hget; [|constructor].
    destruct (negb _); [constructor|].
    destruct (Z.leb_spec (Z.of_nat (length (questions (quiz r)))) (currentIndex r)); simpl.
    + apply change_delete. by apply (get_key c r).
    + apply (change_mutate s _ _ r Hget); [done | by right].
  - intros [= <-]. unfold submitAnswer.
    destruct (JsMap.get c (liveRooms s)) as [r|] eqn:Hget; [|constructor].
    destruct (participants r !! uid (socket_user sock)) as [p|]; [|constructor].
    destruct (question_at _ _); simpl;
      apply (change_mutate s _ _ r Hget); done || by left.
  - intros [= <-]. unfold endLive.
    destruct (JsMap.get c (liveRooms s)) as [r|] eqn:Hget; [|constructor].
    destruct (negb _); [constructor|]. simpl.
    apply change_delete. by apply (get_key c r).
  - intros [= <-]. unfold disconnect.
    destruct (hosted_by sock (liveRooms s)) as [c|] eqn:Hhost; simpl; [|constructor].
    apply change_delete. by apply (hosted_by_key sock).
Qed.

Lemma change_in_range (s : state) (m : list (string * room)) :
  registry_change s m -> all_in_range s ->
  Forall (fun kr : string * room => index_in_range (snd kr)) m.
Proof.
  unfold all_in_range. intros [|c r Hnone _ H0|c _|c f r Hget Hquiz Hidx] Hall.
  - done.
  - apply Forall_set; [|done]. unfold index_in_range. simpl. lia.
  - by apply Forall_delete.
  - apply Forall_mutate; [|done]. intros v Hv. rewrite Hget in Hv. injection Hv as <-.
    unfold index_in_range. simpl. rewrite Hquiz. lia.
Qed.

Lemma dispatch_in_range (s : state) (e : event) (res : result) :
  dispatch s e = Some res -> all_in_range s -> all_in_range (st res).
Proof. intros Hd Hall. apply (change_in_range s); [by apply (dispatch_change s e) | done]. Qed.

Lemma run_in_range (evs : list event) :
  forall (s s' : state) (o : list effect),
    run s evs = Some (s', o) -> all_in_range s -> all_in_range s'.
Proof.
  induction evs as [|e evs IH]; intros s s' o; simpl.
  - by intros [= <- _].
  - destruct (dispatch s e) as [res|] eqn:Hd; [|done].
    destruct (run (st res) evs) as [[s1 o1]|] eqn:Hrun; [|done].
    intros [= <- _] Hall. apply (IH _ _ _ Hrun). by apply (dispatch_in_range s e).
Qed.

(** How one event moves the [currentIndex] of a session that survives it. *)
Lemma currentIndex_step (s : state) (e : event) (res : result) (c : string) (r r' : room) :
  dispatch s e = Some res ->
  JsMap.get c (liveRooms s) = Some r ->
  JsMap.get c (liveRooms (st res)) = Some r' ->
  currentIndex r' = currentIndex r \/
  (currentIndex r < Z.of_nat (length (questions (quiz r))) /\
   currentIndex r' = currentIndex r + 1).
Proof.
  intros Hd Hget. destruct (dispatch_change s e res Hd) as [|c0 r0 Hnone _ _|c0 _|c0 f r0 Hget0 _ Hidx].
  - rewrite Hget. intros [= <-]. by left.
  - rewrite get_set_ne by congruence. rewrite Hget. intros [= <-]. by left.
  - destruct (String.eqb_spec c0 c) as [->|Hne].
    + by rewrite get_delete_eq.
    + rewrite get_delete_ne by done. rewrite Hget. intros [= <-]. by left.
  - destruct (String.eqb_spec c0 c) as [->|Hne].
    + rewrite get_mutate_eq, Hget. simpl. intros [= <-].
      rewrite Hget in Hget0. injection Hget0 as <-. exact Hidx.
    + rewrite get_mutate_ne by done. rewrite Hget. intros [= <-]. by left.
Qed.

(** C5.  In every state the server can reach from the empty registry, by
    any sequence of events, every registered session has
    [0 <= currentIndex <= len(quiz.questions)].  From such a state a
    session that [createLive] registers starts at 0, and an event leaves
    the [currentIndex] of a session as it is or adds 1 to it, the latter
    only when it was below [len(quiz.questions)]. *)
Theorem currentIndex_in_range (evs : list event) (s : state) (o : list effect) :
  run init evs = Some (s, o) ->
  (forall c r, In (c, r) (liveRooms s) ->
     0 <= currentIndex r <= Z.of_nat (length (questions (quiz r)))) /\
  (forall sock qid f draws res c,
     createLive s sock qid f draws = Some res ->
     In (Callback (sid sock) (ReplyCode c)) (out res) ->
     (currentIndex <$> JsMap.get c (liveRooms (st res))) = Some 0) /\
  (forall e res c r r',
     dispatch s e = Some res ->
     JsMap.get c (liveRooms s) = Some r ->
     JsMap.get c (liveRooms (st res)) = Some r' ->
     currentIndex r' = currentIndex r \/
     (currentIndex r < Z.of_nat (length (questions (quiz r))) /\
      currentIndex r' = currentIndex r + 1)).
Proof.
  intros Hrun. split; [|split].
  - intros c r Hin.
    assert (Hall : all_in_range s).
    { apply (run_in_range evs init s o Hrun). constructor. }
    unfold all_in_range in Hall. rewrite Forall_forall in Hall.
    apply (Hall (c, r)). by apply list_elem_of_In.
  - intros sock qid f draws res c Hcreate Hreply.
    destruct (createLive_replied_code _ _ _ _ _ _ _ Hcreate Hreply) as (d & _ & _ & ->).
    simpl. by rewrite get_set_eq.
  - intros e res c r r'. apply currentIndex_step.
Qed.

Lemma currentIndex_in_range_witness :
  (forall c r, In (c, r) (liveRooms question0_sent) ->
     0 <= currentIndex r <= Z.of_nat (length (questions (quiz r)))) /\
  (forall sock qid f draws res c,
     createLive question0_sent sock qid f draws = Some res ->
     In (Callback (sid sock) (ReplyCode c)) (out res) ->
     (currentIndex <$> JsMap.get c (liveRooms (st res))) = Some 0) /\
  (forall e res c r r',
     dispatch question0_sent e = Some res ->
     JsMap.get c (liveRooms question0_sent) = Some r ->
     JsMap.get c (liveRooms (st res)) = Some r' ->
     currentIndex r' = currentIndex r \/
     (currentIndex r < Z.of_nat (length (questions (quiz r))) /\
      currentIndex r' = currentIndex r + 1)).
Proof.
  apply (currentIndex_in_range
           [EvCreateLive teacher "quiz-2" (Doc quiz2) ["abc123"];
            EvJoinLive alice "QZ-ABC123";
            EvNextQuestion teacher "QZ-ABC123"]
           question0_sent
           [Console (LogLiveCreated "t1" "QZ-ABC123");
            Callback 1 (ReplyCode "QZ-ABC123");
            SocketEmit 1 (liveCreated "QZ-ABC123");
            SocketEmit 1 (studentJoined "Alice" 1);
            SocketTo 2 "QZ-ABC123" (studentJoined "Alice" 1);
            Console (LogJoined "Alice" "QZ-ABC123");
            Callback 2 ReplySuccess;
            IoTo "QZ-ABC123"
              (newQuestion (Some {| content := "2 + 2 ?"; correct := [1] |}) 0);
            Console (LogQuestionSent 1 "QZ-ABC123")]).
  vm_compute. reflexivity.
Defined.

(** ** Keys of the registry *)

Lemma not_key_get {V} (k : string) (m : list (string * V)) :
  ~ In k (map fst m) -> JsMap.get k m = None.
Proof.
  induction m as [|[k' v'] m IH]; simpl; [done|].
  intros Hnot. destruct (String.eqb_spec k k') as [->|Hne].
  - destruct Hnot. by left.
  - apply IH. intros Hin. apply Hnot. by right.
Qed.

Lemma get_not_key {V} (k : string) (m : list (string * V)) :
  JsMap.get k m = None -> ~ In k (map fst m).
Proof.
  induction m as [|[k' v'] m IH]; simpl; [by intros _ []|].
  destruct (String.eqb_spec k k') as [->|Hne]; [done|].
  intros Hget [Heq|Hin]; [congruence | by apply IH].
Qed.

Lemma keys_set_fresh {V} (k : string) (v : V) (m : list (string * V)) :
  JsMap.get k m = None -> map fst (JsMap.set k v m) = map fst m ++ [k].
Proof.
  induction m as [|[k' v'] m IH]; simpl; [done|].
  destruct (String.eqb_spec k k'); [done|]. intros H. simpl. by rewrite IH.
Qed.

Lemma NoDup_keys_delete {V} (k : string) (m : list (string * V)) :
  NoDup (map fst m) -> NoDup (map fst (JsMap.delete k m)).
Proof.
  induction m as [|[k' v'] m IH]; simpl; [done|].
  intros Hnd. apply NoDup_cons in Hnd as [Hnot Hnd].
  destruct (String.eqb_spec k k'); [by apply IH|].
  simpl. apply NoDup_cons. split; [|by apply IH].
  intros Hin. apply Hnot. apply list_elem_of_In. apply (keys_delete k).
  by apply list_elem_of_In.
Qed.

Lemma change_keys_NoDup (s : state) (m : list (string * room)) :
  registry_change s m -> NoDup (map fst (liveRooms s)) -> NoDup (map fst m).
Proof.
  intros [|c r Hnone _ _|c _|c f r _ _ _] Hnd.
  - done.
  - rewrite keys_set_fresh by done. apply NoDup_app. split; [done|]. split.
    + intros x Hx Hc. apply list_elem_of_singleton in Hc as ->.
      apply (get_not_key c (liveRooms s) Hnone). by apply list_elem_of_In.
    + apply NoDup_singleton.
  - by apply NoDup_keys_delete.
  - by rewrite keys_mutate.
Qed.

Lemma run_keys_NoDup (evs : list event) :
  forall (s s' : state) (o : list effect),
    run s evs = Some (s', o) -> NoDup (map fst (liveRooms s)) -> NoDup (map fst (liveRooms s')).
Proof.
  induction evs as [|e evs IH]; intros s s' o; simpl.
  - by intros [= <- _].
  - destruct (dispatch s e) as [res|] eqn:Hd; [|done].
    destruct (run (st res) evs) as [[s1 o1]|] eqn:Hrun; [|done].
    intros [= <- _] Hnd. apply (IH _ _ _ Hrun).
    apply (change_keys_NoDup s); [by apply (dispatch_change s e) | done].
Qed.

Lemma reachable_keys_NoDup (s : state) : reachable s -> NoDup (map fst (liveRooms s)).
Proof.
  intros (evs & o & Hrun). apply (run_keys_NoDup evs init s o Hrun). simpl. apply NoDup_nil_2.
Qed.

(** ** Disconnection of a host *)

Lemma hosted_by_first (sock : socket) (l1 l2 : list (string * room)) (c : string) (r : room) :
  Forall (not_hosted_by sock) l1 ->
  same_socket (hostSocket r) sock = true ->
  hosted_by sock (l1 ++ (c, r) :: l2) = Some c.
Proof.
  intros Hl1 Hr. induction Hl1 as [|[k v] l1 Hx _ IH]; simpl.
  - by rewrite Hr.
  - unfold not_hosted_by in Hx. simpl in Hx. by rewrite Hx.
Qed.

Lemma delete_not_key {V} (k : string) (m : list (string * V)) :
  ~ In k (map fst m) -> JsMap.delete k m = m.
Proof. intros H. apply delete_absent. by apply not_key_get. Qed.

Lemma delete_the_entry {V} (l1 l2 : list (string * V)) (k : string) (v : V) :
  NoDup (map fst (l1 ++ (k, v) :: l2)) -> JsMap.delete k (l1 ++ (k, v) :: l2) = l1 ++ l2.
Proof.
  induction l1 as [|[k' v'] l1 IH]; simpl; intros Hnd; apply NoDup_cons in Hnd as [Hnot Hnd].
  - rewrite String.eqb_refl. apply delete_not_key. intros Hin. apply Hnot.
    by apply list_elem_of_In.
  - destruct (String.eqb_spec k k') as [->|Hne].
    + destruct Hnot. apply list_elem_of_In. rewrite map_app. apply in_or_app. right. by left.
    + by rewrite IH.
Qed.

Lemma delete_length {V} (k : string) (m : list (string * V)) :
  NoDup (map fst m) -> (length m <= S (length (JsMap.delete k m)))%nat.
Proof.
  induction m as [|[k' v'] m IH]; simpl; [lia|].
  intros Hnd. apply NoDup_cons in Hnd as [Hnot Hnd].
  destruct (String.eqb_spec k k') as [->|Hne]; simpl.
  - rewrite delete_not_key; [lia|]. intros Hin. apply Hnot. by apply list_elem_of_In.
  - specialize (IH Hnd). lia.
Qed.

(** C9.  A [disconnect] ends at most one session.  When the dropped
    connection hosts several, the loop stops at the first of them in the
    order of the registry: that one gets the [liveEnded]
    (teacher disconnected) broadcast and is deleted, and every entry
    after it stays, the ones with the same host included. *)
Theorem disconnect_ends_first_hosted_only (s : state) (sock : socket) (why : string) :
  reachable s ->
  let d := disconnect s sock why in
  (length (liveRooms s) <= S (length (liveRooms (st d))))%nat /\
  forall l1 c r l2,
    liveRooms s = l1 ++ (c, r) :: l2 ->
    Forall (not_hosted_by sock) l1 ->
    same_socket (hostSocket r) sock = true ->
    liveRooms (st d) = l1 ++ l2 /\
    out d = [Console (LogDisconnect (uid (socket_user sock)) why);
             IoTo c (liveEnded teacher_disconnected);
             Console (LogTeacherDisconnected c)].
Proof.
  intros Hreach d. pose proof (reachable_keys_NoDup s Hreach) as Hnd. split.
  - subst d. unfold disconnect. destruct (hosted_by sock (liveRooms s)); simpl; [|lia].
    by apply delete_length.
  - intros l1 c r l2 Hsplit Hl1 Hr. subst d. unfold disconnect.
    rewrite Hsplit, (hosted_by_first sock l1 l2 c r Hl1 Hr). simpl.
    rewrite Hsplit in Hnd. by rewrite delete_the_entry.
Qed.

(** The teacher opens a second live, "QZ-DEF456" (the first draw
    collides with the live that exists), and Alice is in the first. *)
Lemma disconnect_ends_first_hosted_only_witness :
  let two_lives :=
    state_of (createLive lobby_alice teacher "quiz-1" (Doc quiz1) ["abc123"; "def456"]) in
  let d := disconnect two_lives teacher "transport close" in
  (map fst (liveRooms two_lives) = ["QZ-ABC123"; "QZ-DEF456"]%string /\
   map fst (liveRooms (st d)) = ["QZ-DEF456"]%string /\
   (hostSocket <$> JsMap.get "QZ-DEF456" (liveRooms (st d))) = Some teacher) /\
  ((length (liveRooms two_lives) <= S (length (liveRooms (st d))))%nat /\
   forall l1 c r l2,
     liveRooms two_lives = l1 ++ (c, r) :: l2 ->
     Forall (not_hosted_by teacher) l1 ->
     same_socket (hostSocket r) teacher = true ->
     liveRooms (st d) = l1 ++ l2 /\
     out d = [Console (LogDisconnect (uid (socket_user teacher)) "transport close");
              IoTo c (liveEnded teacher_disconnected);
              Console (LogTeacherDisconnected c)]).
Proof.
  split.
  - vm_compute. repeat split; reflexivity.
  - apply (disconnect_ends_first_hosted_only
             (state_of (createLive lobby_alice teacher "quiz-1" (Doc quiz1) ["abc123"; "def456"]))
             teacher "transport close").
    exists [EvCreateLive teacher "quiz-2" (Doc quiz2) ["abc123"];
            EvJoinLive alice "QZ-ABC123";
            EvCreateLive teacher "quiz-1" (Doc quiz1) ["abc123"; "def456"]].
    eexists. vm_compute. reflexivity.
Defined.

(** ** Groups and the case of the code *)

Lemma upper_ascii_idem (a : ascii) : upper_ascii (upper_ascii a) = upper_ascii a.
Proof. by destruct a as [[] [] [] [] [] [] [] []]. Qed.

Lemma toUpperCase_idem (x : string) : toUpperCase (toUpperCase x) = toUpperCase x.
Proof. induction x as [|a x IH]; simpl; [done|]. by rewrite upper_ascii_idem, IH. Qed.

Lemma toUpperCase_append (x y : string) :
  toUpperCase (String.append x y) = String.append (toUpperCase x) (toUpperCase y).
Proof. induction x as [|a x IH]; simpl; [done|]. by rewrite IH. Qed.

Lemma generateCode_canonical (rnd : string) :
  toUpperCase (generateCode rnd) = generateCode rnd.
Proof. unfold generateCode. by rewrite toUpperCase_append, toUpperCase_idem. Qed.





Lemma joinLive_found (s : state) (sock : socket) (c : string) (r : room) :
  JsMap.get (toUpperCase c) (liveRooms s) = Some r ->
  let res := joinLive s sock c in
  (sid sock, c) ∈ joined (st res) /\
  In (Callback (sid sock) ReplySuccess) (out res) /\
  participant_of (st res) (toUpperCase c) (uid (socket_user sock)) =
    Some {| name := user_name (socket_user sock); score := 0; answers := ∅ |}.
Proof.
  intros Hget res. subst res. unfold joinLive. rewrite Hget. simpl. split; [set_solver|].
  split; [do 3 right; by left|].
  unfold participant_of. simpl. rewrite get_mutate_eq, Hget. simpl. apply lookup_insert_eq.
Qed.


(** * Further properties of the server *)

(** ** Who gets in *)

Lemma js_or_literal_nonempty (x : option string) (literal : string) :
  literal <> ""%string -> js_or_literal x literal <> ""%string.
Proof.
  intros Hlit. unfold js_or_literal. destruct x as [v|]; [|done].
  by destruct (String.eqb_spec v "").
Qed.

Lemma middleware_accepted (token : option string) (verifyIdToken : string -> verification)
    (l : list authlog) (u : user) :
  middleware token verifyIdToken = (l, Accepted u) ->
  exists tk d,
    token = Some tk /\ tk <> ""%string /\ verifyIdToken tk = Decoded d /\ l = [] /\
    u = {| uid := DecodedToken.uid d;
           email := match DecodedToken.email d with Some m => m | None => "" end;
           user_name :=
             js_or_literal (js_or (DecodedToken.name d) (before_at <$> DecodedToken.email d))
                           "Anonyme";
           role := js_or_literal (DecodedToken.role d) "student" |}.
Proof.
  unfold middleware. destruct token as [tk|]; simpl; [|done].
  destruct (String.eqb_spec tk "") as [->|Hne]; [done|].
  destruct (verifyIdToken tk) as [|d] eqn:Hv; [done|].
  intros [= <- <-]. by exists tk, d.
Qed.

(** X1.  A connection is accepted only with a non-empty token that the
    verifier decoded; the user then carries the [uid] of the token, and
    has the role "teacher" exactly when the token has the claim
    [role = 'teacher'].  Without a token, or with an empty one, the
    connection is refused whatever the verifier would say. *)
Theorem middleware_accepts_verified_tokens_only (token : option string)
    (verifyIdToken : string -> verification) :
  (forall l u,
     middleware token verifyIdToken = (l, Accepted u) ->
     exists tk d,
       token = Some tk /\ tk <> ""%string /\ verifyIdToken tk = Decoded d /\
       uid u = DecodedToken.uid d /\
       (role u = "teacher"%string <-> DecodedToken.role d = Some "teacher"%string)) /\
  (falsy token = true -> middleware token verifyIdToken = ([], Refused TokenMissing)) /\
  (forall tk, token = Some tk -> tk <> ""%string -> verifyIdToken tk = VerifyThrows ->
     middleware token verifyIdToken = ([LogVerifyError], Refused TokenInvalid)).
Proof.
  split; [|split].
  - intros l u Hacc.
    destruct (middleware_accepted token verifyIdToken l u Hacc) as (tk & d & -> & Hne & Hv & _ & ->).
    exists tk, d. repeat split; try done; simpl.
    + unfold js_or_literal. destruct (DecodedToken.role d) as [v|]; [|done].
      destruct (String.eqb_spec v ""); [done|]. by intros ->.
    + by intros ->.
  - intros Hf. unfold middleware. by rewrite Hf.
  - intros tk -> Hne Hv. unfold middleware. simpl.
    destruct (String.eqb_spec tk ""); [done|]. by rewrite Hv.
Qed.

(** X2.  An accepted user always has a display name and a role: neither
    is the empty string, whatever claims the token has (the name falls
    back on the part of the e-mail before the at sign, then on
    'Anonyme'; the role on 'student'). *)
Theorem accepted_user_has_name_and_role (token : option string)
    (verifyIdToken : string -> verification) (l : list authlog) (u : user) :
  middleware token verifyIdToken = (l, Accepted u) ->
  user_name u <> ""%string /\ role u <> ""%string.
Proof.
  intros Hacc.
  destruct (middleware_accepted token verifyIdToken l u Hacc) as (tk & d & _ & _ & _ & _ & ->).
  simpl. split; by apply js_or_literal_nonempty.
Qed.

Lemma accepted_user_has_name_and_role_witness :
  user_name {| uid := "u7"; email := "@example.org"; user_name := "Anonyme";
               role := "student" |} <> ""%string /\
  role {| uid := "u7"; email := "@example.org"; user_name := "Anonyme";
          role := "student" |} <> ""%string.
Proof.
  apply (accepted_user_has_name_and_role (Some "tok"%string)
           (fun _ => Decoded {| DecodedToken.uid := "u7";
                                DecodedToken.email := Some "@example.org"%string;
                                DecodedToken.name := Some ""%string;
                                DecodedToken.role := None |})
           []).
  reflexivity.
Defined.

(** X3.  A connection whose token does not carry the claim
    [role = 'teacher'] can never open a live: in every state, whatever
    the quiz and whatever Firestore answers, its [createLive] is refused
    on the acknowledgement and the state is left as it was. *)
Theorem only_teacher_tokens_open_lives (id : nat) (tk : string)
    (verifyIdToken : string -> verification) (d : DecodedToken.t)
    (l : list authlog) (sock : socket) :
  connect id (Some tk) verifyIdToken = (l, Some sock) ->
  verifyIdToken tk = Decoded d ->
  DecodedToken.role d <> Some "teacher"%string ->
  forall s qid f draws,
    createLive s sock qid f draws =
      Some {| st := s; out := [Callback id (ReplyError NotTeacher)]; threw := false |}.
Proof.
  unfold connect. intros Hc Hv Hrole s qid f draws.
  destruct (middleware (Some tk) verifyIdToken) as [l0 [e|u]] eqn:Hm; [done|].
  injection Hc as _ <-.
  destruct (middleware_accepted _ _ _ _ Hm) as (tk' & d' & [= <-] & _ & Hv' & _ & ->).
  rewrite Hv in Hv'. injection Hv' as <-.
  unfold createLive. simpl.
  assert (Hr : js_or_literal (DecodedToken.role d) "student" <> "teacher"%string).
  { unfold js_or_literal. destruct (DecodedToken.role d) as [v|]; [|done].
    destruct (String.eqb_spec v ""); [done|]. congruence. }
  by destruct (String.eqb_spec (js_or_literal (DecodedToken.role d) "student") "teacher").
Qed.

Lemma only_teacher_tokens_open_lives_witness :
  createLive lobby {| sid := 9;
                      socket_user := {| uid := "u9"; email := "zoe@example.org";
                                        user_name := "zoe"; role := "student" |} |}
             "quiz-2" (Doc quiz2) ["zzz999"] =
    Some {| st := lobby; out := [Callback 9 (ReplyError NotTeacher)]; threw := false |}.
Proof.
  refine (only_teacher_tokens_open_lives 9 "tok"
           (fun _ => Decoded {| DecodedToken.uid := "u9";
                                DecodedToken.email := Some "zoe@example.org"%string;
                                DecodedToken.name := None;
                                DecodedToken.role := None |})
           {| DecodedToken.uid := "u9";
              DecodedToken.email := Some "zoe@example.org"%string;
              DecodedToken.name := None;
              DecodedToken.role := None |}
           [LogConnected "u9" "student"] _ _ _ _ lobby "quiz-2" (Doc quiz2) ["zzz999"]).
  - reflexivity.
  - reflexivity.
  - discriminate.
Defined.

(** ** One event at a time *)

Lemma dispatch_handled (s : state) (e : event) (res : result) :
  dispatch s e = Some res -> handled s e (liveRooms (st res)).
Proof.
  destruct e as [sock qid f draws|sock c|sock c|sock c a|sock c|sock why]; simpl.
  - unfold createLive.
    destruct (String.eqb_spec (role (socket_user sock)) "teacher") as [Hrole|Hrole]; simpl;
      [|intros [= <-]; constructor].
    destruct f as [| |d]; try (intros [= <-]; constructor).
    destruct (String.eqb_spec (ownerUid d) (uid (socket_user sock))) as [Hown|Hown]; simpl;
      [|intros [= <-]; constructor].
    destruct (freshCode draws (liveRooms s)) as [c|] eqn:Hfresh; [|done].
    intros [= <-]. simpl. by apply handled_create.
  - intros [= <-]. unfold joinLive.
    destruct (JsMap.get (toUpperCase c) (liveRooms s)) as [r|] eqn:Hget; simpl.
    + by apply (handled_join s sock c r).
    + constructor.
  - intros [= <-]. unfold nextQuestion.
    destruct (JsMap.get c (liveRooms s)) as [r|] eqn:Hget; [|constructor].
    destruct (negb _); [constructor|].
    destruct (Z.leb_spec (Z.of_nat (length (questions (quiz r)))) (currentIndex r)); simpl.
    + apply handled_delete; [by apply (get_key c r) | done | done].
    + by apply (handled_advance s sock c r).
  - intros [= <-]. unfold submitAnswer.
    destruct (JsMap.get c (liveRooms s)) as [r|] eqn:Hget; [|constructor].
    destruct (participants r !! uid (socket_user sock)) as [p|] eqn:Hp; [|constructor].
    destruct (question_at _ _) as [q|]; simpl.
    + apply (handled_answer s sock c a r p); [done | done | | |].
      * by destruct (includes a (correct q)).
      * destruct (includes a (correct q)); simpl; lia.
      * by destruct (includes a (correct q)).
    + apply (handled_answer s sock c a r p); [done | done | done | simpl; lia | done].
  - intros [= <-]. unfold endLive.
    destruct (JsMap.get c (liveRooms s)) as [r|] eqn:Hget; [|constructor].
    destruct (negb _); [constructor|]. simpl.
    apply handled_delete; [by apply (get_key c r) | done | done].
  - intros [= <-]. unfold disconnect.
    destruct (hosted_by sock (liveRooms s)) as [c|] eqn:Hhost; simpl; [|constructor].
    apply handled_delete; [by apply (hosted_by_key sock) | done | done].
Qed.

Lemma generateCode_prefix (rnd : string) : String.prefix "QZ-" (generateCode rnd) = true.
Proof. unfold generateCode. simpl. by destruct (toUpperCase rnd). Qed.

Lemma handled_well_formed (s : state) (e : event) (m : list (string * room)) :
  handled s e m -> Forall well_formed_entry (liveRooms s) -> Forall well_formed_entry m.
Proof.
  intros [e0|sock qid d draws c Hfresh Hrole Hown|sock c r Hget|sock c r Hget _
          |sock c a r p p' Hget _ _ _ _|e0 c _ _ _] Hall.
  - done.
  - apply Forall_set; [|done].
    destruct (freshCode_generated _ _ _ Hfresh) as [_ (rnd & _ & ->)].
    unfold well_formed_entry. simpl.
    split; [done|]. split; [apply generateCode_prefix|].
    split; [apply generateCode_canonical|]. done.
  - apply Forall_mutate; [|done]. intros v _ Hv. exact Hv.
  - apply Forall_mutate; [|done]. intros v _ Hv. exact Hv.
  - apply Forall_mutate; [|done]. intros v _ Hv. exact Hv.
  - by apply Forall_delete.
Qed.

Lemma handled_scores_nonneg (s : state) (e : event) (m : list (string * room)) :
  handled s e m -> scores_nonneg s ->
  Forall (fun kr : string * room =>
            forall u p, participants (snd kr) !! u = Some p -> 0 <= score p) m.
Proof.
  unfold scores_nonneg.
  intros [e0|sock qid d draws c _ _ _|sock c r Hget|sock c r Hget _
          |sock c a r p p' Hget Hp _ Hscore _|e0 c _ _ _] Hall.
  - done.
  - apply Forall_set; [|done]. simpl. intros u p. by rewrite lookup_empty.
  - apply Forall_mutate; [|done]. simpl. intros v _ Hv u p.
    destruct (decide (uid (socket_user sock) = u)) as [<-|Hne].
    + rewrite lookup_insert_eq. by intros [= <-].
    + rewrite lookup_insert_ne by done. apply Hv.
  - apply Forall_mutate; [|done]. simpl. intros v _ Hv. exact Hv.
  - apply Forall_mutate; [|done]. simpl. intros v Hv Hpos u p0.
    rewrite Hget in Hv. injection Hv as <-.
    destruct (decide (uid (socket_user sock) = u)) as [<-|Hne].
    + rewrite lookup_insert_eq. intros [= <-]. specialize (Hpos _ _ Hp). lia.
    + rewrite lookup_insert_ne by done. apply Hpos.
  - by apply Forall_delete.
Qed.

Lemma run_invariant (P : list (string * room) -> Prop) :
  (forall s e m, handled s e m -> P (liveRooms s) -> P m) ->
  forall evs s s' o, run s evs = Some (s', o) -> P (liveRooms s) -> P (liveRooms s').
Proof.
  intros Hstep. induction evs as [|e evs IH]; intros s s' o; simpl.
  - by intros [= <- _].
  - destruct (dispatch s e) as [res|] eqn:Hd; [|done].
    destruct (run (st res) evs) as [[s1 o1]|] eqn:Hrun; [|done].
    intros [= <- _] HP. apply (IH _ _ _ Hrun).
    apply (Hstep s e); [by apply dispatch_handled | done].
Qed.

(** X4.  In every state the server can reach, the keys of the registry
    are pairwise distinct and every session is filed under its own
    [code]; that code starts with "QZ-" and is in upper case; and the
    host of the session is a connection with the role "teacher" whose
    [uid] is the owner of the quiz of the session. *)
Theorem sessions_are_well_formed (s : state) :
  reachable s ->
  NoDup (map fst (liveRooms s)) /\
  forall c r, In (c, r) (liveRooms s) ->
    code r = c /\
    String.prefix "QZ-" c = true /\
    toUpperCase c = c /\
    role (socket_user (hostSocket r)) = "teacher"%string /\
    ownerUid (quiz r) = uid (socket_user (hostSocket r)).
Proof.
  intros Hreach. split; [by apply reachable_keys_NoDup|].
  destruct Hreach as (evs & o & Hrun). intros c r Hin.
  assert (Hall : Forall well_formed_entry (liveRooms s)).
  { apply (run_invariant (Forall well_formed_entry) handled_well_formed evs init s o Hrun).
    constructor. }
  rewrite Forall_forall in Hall. apply (Hall (c, r)). by apply list_elem_of_In.
Qed.

(** X5.  In every state the server can reach, no participant of any
    session has a negative score. *)
Theorem scores_are_never_negative (s : state) (c u : string) (r : room) (p : participant) :
  reachable s ->
  In (c, r) (liveRooms s) ->
  participants r !! u = Some p ->
  0 <= score p.
Proof.
  intros (evs & o & Hrun) Hin Hp.
  assert (Hall : scores_nonneg s).
  { apply (run_invariant _ handled_scores_nonneg evs init s o Hrun). constructor. }
  unfold scores_nonneg in Hall. rewrite Forall_forall in Hall.
  apply (Hall (c, r) ltac:(by apply list_elem_of_In) u p Hp).
Qed.

Ltac reach evs := exists evs; eexists; vm_compute; reflexivity.

Lemma sessions_are_well_formed_witness :
  NoDup (map fst (liveRooms answered)) /\
  forall c r, In (c, r) (liveRooms answered) ->
    code r = c /\
    String.prefix "QZ-" c = true /\
    toUpperCase c = c /\
    role (socket_user (hostSocket r)) = "teacher"%string /\
    ownerUid (quiz r) = uid (socket_user (hostSocket r)).
Proof. apply (sessions_are_well_formed answered). reach answered_trace. Defined.

Lemma scores_are_never_negative_witness :
  0 <= score {| name := "Alice"; score := 1; answers := {[ 0 := 1 ]} |}.
Proof.
  apply (scores_are_never_negative answered "QZ-ABC123" "a1"
           (with_participant "a1" {| name := "Alice"; score := 1; answers := {[ 0 := 1 ]} |}
              (advance (with_participant "a1" alice0 room0)))).
  - reach answered_trace.
  - left. vm_compute. reflexivity.
  - vm_compute. reflexivity.
Defined.

Lemma get_mutate_known {V} (k : string) (f : V -> V) (m : list (string * V)) (v : V) :
  JsMap.get k m = Some v -> JsMap.get k (JsMap.mutate k f m) = Some (f v).
Proof. intros H. by rewrite get_mutate_eq, H. Qed.

(** X6.  Handling one event never changes what a session is: a session
    that is registered before and after the event has the same [code],
    host, [quizId] and quiz content, a [currentIndex] that did not go
    down, and still has every participant it had. *)
Theorem session_identity_is_kept (s : state) (e : event) (res : result)
    (c : string) (r r' : room) :
  dispatch s e = Some res ->
  JsMap.get c (liveRooms s) = Some r ->
  JsMap.get c (liveRooms (st res)) = Some r' ->
  code r' = code r /\ hostSocket r' = hostSocket r /\
  quizId r' = quizId r /\ quiz r' = quiz r /\
  currentIndex r <= currentIndex r' /\
  forall u, is_Some (participants r !! u) -> is_Some (participants r' !! u).
Proof.
  intros Hd Hget.
  destruct (dispatch_handled s e res Hd)
    as [e0|sock qid d draws c0 Hfresh _ _|sock c0 r0 Hget0|sock c0 r0 Hget0 _
        |sock c0 a r0 p p' Hget0 _ _ _ _|e0 c0 _ _ _].
  - rewrite Hget. intros [= <-]. repeat split; [lia | done].
  - destruct (freshCode_generated _ _ _ Hfresh) as [Hnone _].
    rewrite get_set_ne by congruence. rewrite Hget. intros [= <-].
    repeat split; [lia | done].
  - destruct (String.eqb_spec (toUpperCase c0) c) as [Heq|Hne].
    + rewrite Heq in *. rewrite (get_mutate_known _ _ _ _ Hget). intros [= <-]. simpl.
      repeat split; [lia|]. intros u Hu.
      destruct (decide (uid (socket_user sock) = u)) as [<-|Hneq].
      * by rewrite lookup_insert_eq.
      * by rewrite lookup_insert_ne.
    + rewrite get_mutate_ne by done. rewrite Hget. intros [= <-].
      repeat split; [lia | done].
  - destruct (String.eqb_spec c0 c) as [->|Hne].
    + rewrite (get_mutate_known _ _ _ _ Hget). intros [= <-]. simpl.
      repeat split; [lia | done].
    + rewrite get_mutate_ne by done. rewrite Hget. intros [= <-].
      repeat split; [lia | done].
  - destruct (String.eqb_spec c0 c) as [->|Hne].
    + rewrite (get_mutate_known _ _ _ _ Hget). intros [= <-]. simpl.
      repeat split; [lia|]. intros u Hu.
      destruct (decide (uid (socket_user sock) = u)) as [<-|Hneq].
      * by rewrite lookup_insert_eq.
      * by rewrite lookup_insert_ne.
    + rewrite get_mutate_ne by done. rewrite Hget. intros [= <-].
      repeat split; [lia | done].
  - destruct (String.eqb_spec c0 c) as [->|Hne].
    + by rewrite get_delete_eq.
    + rewrite get_delete_ne by done. rewrite Hget. intros [= <-].
      repeat split; [lia | done].
Qed.

Lemma session_identity_is_kept_witness :
  let r := advance (with_participant "a1" alice0 room0) in
  let r' := with_participant "a1" {| name := "Alice"; score := 1; answers := {[ 0 := 1 ]} |} r in
  code r' = code r /\ hostSocket r' = hostSocket r /\
  quizId r' = quizId r /\ quiz r' = quiz r /\
  currentIndex r <= currentIndex r' /\
  forall u, is_Some (participants r !! u) -> is_Some (participants r' !! u).
Proof.
  apply (session_identity_is_kept question0_sent (EvSubmitAnswer alice "QZ-ABC123" 1)
           (submitAnswer question0_sent alice "QZ-ABC123" 1) "QZ-ABC123").
  - reflexivity.
  - vm_compute. reflexivity.
  - vm_compute. reflexivity.
Defined.

(** X7.  Handling one event leaves the score of a participant who is in
    the session before and after it where it was, or adds 1 to it, and
    keeps the name; the one exception is a [joinLive] of the same user
    for that session, which starts the participant again with score 0
    and no answers. *)
Theorem score_drops_only_on_rejoin (s : state) (e : event) (res : result)
    (c u : string) (p p' : participant) :
  dispatch s e = Some res ->
  participant_of s c u = Some p ->
  participant_of (st res) c u = Some p' ->
  (name p' = name p /\ score p <= score p' <= score p + 1) \/
  (exists sock c', e = EvJoinLive sock c' /\ toUpperCase c' = c /\
                   uid (socket_user sock) = u /\
                   p' = {| name := user_name (socket_user sock); score := 0; answers := ∅ |}).
Proof.
  intros Hd. unfold participant_of.
  destruct (JsMap.get c (liveRooms s)) as [r|] eqn:Hget; [|done]. intros Hp.
  destruct (dispatch_handled s e res Hd)
    as [e0|sock qid d draws c0 Hfresh _ _|sock c0 r0 Hget0|sock c0 r0 Hget0 _
        |sock c0 a r0 p0 p1 Hget0 Hp0 Hname Hscore _|e0 c0 _ _ _].
  - rewrite Hget, Hp. intros [= <-]. left. split; [done | lia].
  - destruct (freshCode_generated _ _ _ Hfresh) as [Hnone _].
    rewrite get_set_ne by congruence. rewrite Hget, Hp. intros [= <-]. left. split; [done | lia].
  - destruct (String.eqb_spec (toUpperCase c0) c) as [Heq|Hne].
    + rewrite Heq in *. rewrite (get_mutate_known _ _ _ _ Hget). simpl.
      destruct (decide (uid (socket_user sock) = u)) as [<-|Hneq].
      * rewrite lookup_insert_eq. intros [= <-]. right. by exists sock, c0.
      * rewrite lookup_insert_ne by done. rewrite Hp. intros [= <-]. left. split; [done | lia].
    + rewrite get_mutate_ne by done. rewrite Hget, Hp. intros [= <-]. left. split; [done | lia].
  - destruct (String.eqb_spec c0 c) as [->|Hne].
    + rewrite (get_mutate_known _ _ _ _ Hget). simpl. rewrite Hp. intros [= <-].
      left. split; [done | lia].
    + rewrite get_mutate_ne by done. rewrite Hget, Hp. intros [= <-]. left. split; [done | lia].
  - destruct (String.eqb_spec c0 c) as [->|Hne].
    + rewrite (get_mutate_known _ _ _ _ Hget). simpl.
      rewrite Hget in Hget0. injection Hget0 as <-.
      destruct (decide (uid (socket_user sock) = u)) as [<-|Hneq].
      * rewrite lookup_insert_eq. intros [= <-]. rewrite Hp in Hp0. injection Hp0 as <-.
        by left.
      * rewrite lookup_insert_ne by done. rewrite Hp. intros [= <-]. left. split; [done | lia].
    + rewrite get_mutate_ne by done. rewrite Hget, Hp. intros [= <-]. left. split; [done | lia].
  - destruct (String.eqb_spec c0 c) as [->|Hne].
    + by rewrite get_delete_eq.
    + rewrite get_delete_ne by done. rewrite Hget, Hp. intros [= <-]. left. split; [done | lia].
Qed.

(** Alice, with score 1, joins again, typing the code in lower case. *)
Lemma score_drops_only_on_rejoin_witness :
  let p := {| name := "Alice"; score := 1; answers := {[ 0 := 1 ]} |} in
  let p' := {| name := "Alice"; score := 0; answers := ∅ |} in
  (name p' = name p /\ score p <= score p' <= score p + 1) \/
  (exists sock c', EvJoinLive alice "qz-abc123" = EvJoinLive sock c' /\
                   toUpperCase c' = "QZ-ABC123"%string /\
                   uid (socket_user sock) = "a1"%string /\
                   p' = {| name := user_name (socket_user sock); score := 0; answers := ∅ |}).
Proof.
  apply (score_drops_only_on_rejoin answered (EvJoinLive alice "qz-abc123")
           (joinLive answered alice "qz-abc123") "QZ-ABC123" "a1").
  - reflexivity.
  - vm_compute. reflexivity.
  - vm_compute. reflexivity.
Defined.

Lemma keys_of_set {V} (k : string) (v : V) (m : list (string * V)) (x : string) :
  In x (map fst (JsMap.set k v m)) -> x = k \/ In x (map fst m).
Proof.
  induction m as [|[k' v'] m IH]; simpl.
  - intros [<-|[]]. by left.
  - destruct (String.eqb_spec k k') as [->|Hne]; simpl.
    + intros [<-|H]; [by left | by right; right].
    + intros [<-|H]; [by right; left|].
      destruct (IH H); [by left | by right; right].
Qed.

(** X8.  Only a successful [createLive] puts a session in the registry:
    a code that is registered after an event and was not before it is
    the code that a [createLive] of a teacher, owner of the quiz, has
    just drawn and replied. *)
Theorem only_createLive_adds_a_session (s : state) (e : event) (res : result) (c : string) :
  dispatch s e = Some res ->
  In c (map fst (liveRooms (st res))) ->
  ~ In c (map fst (liveRooms s)) ->
  exists sock qid d draws,
    e = EvCreateLive sock qid (Doc d) draws /\
    freshCode draws (liveRooms s) = Some c /\
    role (socket_user sock) = "teacher"%string /\
    ownerUid d = uid (socket_user sock) /\
    In (Callback (sid sock) (ReplyCode c)) (out res).
Proof.
  intros Hd Hin Hnot. pose proof (dispatch_handled s e res Hd) as Hh. revert Hd Hin.
  destruct Hh
    as [e0|sock qid d draws c0 Hfresh Hrole Hown|sock c0 r0 Hget0|sock c0 r0 Hget0 _
        |sock c0 a r0 p0 p1 Hget0 _ _ _ _|e0 c0 _ _ _]; intros Hd Hin.
  - done.
  - apply keys_of_set in Hin as [->|Hin]; [|done].
    exists sock, qid, d, draws. repeat split; try done.
    simpl in Hd. unfold createLive in Hd. rewrite Hrole, Hown, !String.eqb_refl, Hfresh in Hd.
    simpl in Hd. injection Hd as <-. simpl. right. by left.
  - rewrite keys_mutate in Hin. done.
  - rewrite keys_mutate in Hin. done.
  - rewrite keys_mutate in Hin. done.
  - apply keys_delete in Hin. done.
Qed.

Lemma only_createLive_adds_a_session_witness :
  exists sock qid d draws,
    EvCreateLive teacher "quiz-1" (Doc quiz1) ["abc123"; "def456"]
      = EvCreateLive sock qid (Doc d) draws /\
    freshCode draws (liveRooms lobby_alice) = Some "QZ-DEF456"%string /\
    role (socket_user sock) = "teacher"%string /\
    ownerUid d = uid (socket_user sock) /\
    In (Callback (sid sock) (ReplyCode "QZ-DEF456"))
       (out {| st := state_of (createLive lobby_alice teacher "quiz-1" (Doc quiz1)
                                 ["abc123"; "def456"]);
               out := [Console (LogLiveCreated "t1" "QZ-DEF456");
                       Callback 1 (ReplyCode "QZ-DEF456");
                       SocketEmit 1 (liveCreated "QZ-DEF456")];
               threw := false |}).
Proof.
  apply (only_createLive_adds_a_session lobby_alice
           (EvCreateLive teacher "quiz-1" (Doc quiz1) ["abc123"; "def456"])).
  - vm_compute. reflexivity.
  - vm_compute. right. left. reflexivity.
  - vm_compute. intros [H|[]]. discriminate.
Defined.

(** ** Replies, exceptions and questions *)

(** X9.  An acknowledgement is only ever sent to the connection the event
    came from.  [createLive], when it returns, and [joinLive] send exactly
    one; [nextQuestion], [submitAnswer], [endLive] and [disconnect] send
    none, whatever happens. *)
Theorem acknowledgements_go_to_the_caller (s : state) (e : event) (res : result) :
  dispatch s e = Some res ->
  match e with
  | EvCreateLive sock _ _ _ | EvJoinLive sock _ =>
      exists rp, callbacks (out res) = [Callback (sid sock) rp]
  | _ => callbacks (out res) = []
  end.
Proof.
  destruct e as [sock qid f draws|sock c|sock c|sock c a|sock c|sock why]; simpl.
  - unfold createLive. destruct (negb _); [intros [= <-]; by eexists|].
    destruct f as [| |d]; try (intros [= <-]; by eexists).
    destruct (negb _); [intros [= <-]; by eexists|].
    destruct (freshCode draws (liveRooms s)); [|done]. intros [= <-]. by eexists.
  - intros [= <-]. unfold joinLive.
    destruct (JsMap.get (toUpperCase c) (liveRooms s)) as [r|]; simpl; [|by eexists].
    destruct (0 <? currentIndex r); by eexists.
  - intros [= <-]. unfold nextQuestion.
    destruct (JsMap.get c (liveRooms s)) as [r|]; [|done].
    destruct (negb _); [done|]. by destruct (_ <=? _).
  - intros [= <-]. unfold submitAnswer.
    destruct (JsMap.get c (liveRooms s)) as [r|]; [|done].
    destruct (participants r !! uid (socket_user sock)); [|done].
    by destruct (question_at _ _).
  - intros [= <-]. unfold endLive.
    destruct (JsMap.get c (liveRooms s)) as [r|]; [|done]. by destruct (negb _).
  - intros [= <-]. unfold disconnect. by destruct (hosted_by sock (liveRooms s)).
Qed.

Lemma acknowledgements_go_to_the_caller_witness :
  exists rp, callbacks (out (joinLive lobby bob "nope")) = [Callback (sid bob) rp].
Proof.
  apply (acknowledgements_go_to_the_caller lobby (EvJoinLive bob "nope")
           (joinLive lobby bob "nope")).
  reflexivity.
Defined.

Lemma question_at_defined (qs : list question) (i : Z) :
  0 <= i < Z.of_nat (length qs) ->
  exists q, question_at qs i = Some q /\ qs !! Z.to_nat i = Some q.
Proof.
  intros Hi. unfold question_at. destruct (Z.ltb_spec i 0); [lia|].
  destruct (lookup_lt_is_Some_2 qs (Z.to_nat i)) as [q Hq]; [lia|]. by exists q.
Qed.

Lemma question_at_negative (qs : list question) (i : Z) : i < 0 -> question_at qs i = None.
Proof. intros Hi. unfold question_at. by destruct (Z.ltb_spec i 0); [|lia]. Qed.

Lemma reachable_in_range (s : state) (c : string) (r : room) :
  reachable s -> JsMap.get c (liveRooms s) = Some r ->
  0 <= currentIndex r <= Z.of_nat (length (questions (quiz r))).
Proof.
  intros (evs & o & Hrun) Hget.
  assert (Hall : all_in_range s).
  { apply (run_in_range evs init s o Hrun). constructor. }
  unfold all_in_range in Hall. rewrite Forall_forall in Hall.
  apply (Hall (c, r)). apply list_elem_of_In. by apply get_In.
Qed.

(** X10.  In a state the server can reach, the question that
    [submitAnswer] looks up, [questions[currentIndex - 1]], is undefined
    exactly when the session is still in the lobby ([currentIndex = 0]).
    There, for every participant and every answer, the handler stores
    the answer under the index -1, sends nothing and throws. *)
Theorem current_question_is_missing_only_in_the_lobby (s : state) (sock : socket)
    (c : string) (a : Z) (r : room) (p : participant) :
  reachable s ->
  JsMap.get c (liveRooms s) = Some r ->
  participants r !! uid (socket_user sock) = Some p ->
  (question_at (questions (quiz r)) (currentIndex r - 1) = None <-> currentIndex r = 0) /\
  (currentIndex r = 0 ->
   submitAnswer s sock c a =
     {| st := {| liveRooms :=
                   JsMap.mutate c
                     (with_participant (uid (socket_user sock)) (record_answer (-1) a p))
                     (liveRooms s);
                 joined := joined s |};
        out := [];
        threw := true |}).
Proof.
  intros Hreach Hget Hp.
  pose proof (reachable_in_range s c r Hreach Hget) as Hrange. split.
  - split.
    + intros Hnone. destruct (Z.eq_dec (currentIndex r) 0) as [H0|H0]; [done|].
      destruct (question_at_defined (questions (quiz r)) (currentIndex r - 1)) as (q & Hq & _);
        [lia|]. congruence.
    + intros H0. apply question_at_negative. lia.
  - intros H0. by apply (submitAnswer_at_index_zero s sock c a r p).
Qed.

Lemma current_question_is_missing_only_in_the_lobby_witness :
  (question_at (questions (quiz (with_participant "a1" alice0 room0)))
               (currentIndex (with_participant "a1" alice0 room0) - 1) = None
   <-> currentIndex (with_participant "a1" alice0 room0) = 0) /\
  (currentIndex (with_participant "a1" alice0 room0) = 0 ->
   submitAnswer lobby_alice alice "QZ-ABC123" 1 =
     {| st := {| liveRooms :=
                   JsMap.mutate "QZ-ABC123"
                     (with_participant (uid (socket_user alice)) (record_answer (-1) 1 alice0))
                     (liveRooms lobby_alice);
                 joined := joined lobby_alice |};
        out := [];
        threw := true |}).
Proof.
  refine (current_question_is_missing_only_in_the_lobby lobby_alice alice "QZ-ABC123" 1
            (with_participant "a1" alice0 room0) alice0 _ _ _).
  - reach [EvCreateLive teacher "quiz-2" (Doc quiz2) ["abc123"];
           EvJoinLive alice "QZ-ABC123"].
  - vm_compute. reflexivity.
  - vm_compute. reflexivity.
Defined.

(** X11.  In a state the server can reach, a [newQuestion] message, be it
    the broadcast of [nextQuestion] or the catch-up of [joinLive], never
    carries an undefined question: it carries a question of the quiz of
    a registered session together with its position in the quiz. *)
Theorem no_undefined_question_is_sent (s : state) (e : event) (res : result)
    (x : effect) (q : option question) (i : Z) :
  reachable s ->
  dispatch s e = Some res ->
  In x (out res) ->
  question_sent x = Some (q, i) ->
  exists c r question,
    JsMap.get c (liveRooms s) = Some r /\
    0 <= i < Z.of_nat (length (questions (quiz r))) /\
    questions (quiz r) !! Z.to_nat i = Some question /\
    q = Some question.
Proof.
  intros Hreach.
  destruct e as [sock qid f draws|sock c|sock c|sock c a|sock c|sock why]; simpl.
  - unfold createLive. destruct (negb _).
    { intros [= <-]. simpl. intros [<-|[]]. discriminate. }
    destruct f as [| |d].
    + intros [= <-]. simpl. intros [<-|[<-|[]]]; discriminate.
    + intros [= <-]. simpl. intros [<-|[]]. discriminate.
    + destruct (negb _).
      { intros [= <-]. simpl. intros [<-|[]]. discriminate. }
      destruct (freshCode draws (liveRooms s)); [|done].
      intros [= <-]. simpl. intros [<-|[<-|[<-|[]]]]; discriminate.
  - intros [= <-]. unfold joinLive.
    destruct (JsMap.get (toUpperCase c) (liveRooms s)) as [r|] eqn:Hget; simpl.
    + intros [<-|[<-|[<-|[<-|Hin]]]]; try discriminate.
      destruct (Z.ltb_spec 0 (currentIndex r)); simpl in Hin; [|done].
      destruct Hin as [<-|[]]. simpl. intros [= <- <-].
      pose proof (reachable_in_range s _ r Hreach Hget) as Hrange.
      destruct (question_at_defined (questions (quiz r)) (currentIndex r - 1)) as (qu & Hq & Hl);
        [lia|].
      exists (toUpperCase c), r, qu. repeat split; [done | lia | lia | done | done].
    + intros [<-|[]]. discriminate.
  - intros [= <-]. unfold nextQuestion.
    destruct (JsMap.get c (liveRooms s)) as [r|] eqn:Hget; [|done].
    destruct (negb _); [done|].
    destruct (Z.leb_spec (Z.of_nat (length (questions (quiz r)))) (currentIndex r)); simpl.
    + intros [<-|[<-|[]]]; discriminate.
    + intros [<-|[<-|[]]]; [|discriminate]. simpl. intros [= <- <-].
      pose proof (reachable_in_range s _ r Hreach Hget) as Hrange.
      destruct (question_at_defined (questions (quiz r)) (currentIndex r)) as (qu & Hq & Hl);
        [lia|].
      exists c, r, qu. replace (currentIndex r + 1 - 1) with (currentIndex r) by lia.
      repeat split; [done | lia | lia | done | done].
  - intros [= <-]. unfold submitAnswer.
    destruct (JsMap.get c (liveRooms s)) as [r|]; [|done].
    destruct (participants r !! uid (socket_user sock)); [|done].
    destruct (question_at _ _); simpl; [|done].
    intros [<-|[<-|[]]]; discriminate.
  - intros [= <-]. unfold endLive.
    destruct (JsMap.get c (liveRooms s)) as [r|]; [|done].
    destruct (negb _); [done|]. simpl. intros [<-|[<-|[]]]; discriminate.
  - intros [= <-]. unfold disconnect.
    destruct (hosted_by sock (liveRooms s)); simpl.
    + intros [<-|[<-|[<-|[]]]]; discriminate.
    + intros [<-|[]]. discriminate.
Qed.

(** Bob joins after question 0 was sent and is sent that question. *)
Lemma no_undefined_question_is_sent_witness :
  exists c r question,
    JsMap.get c (liveRooms answered) = Some r /\
    0 <= 0 < Z.of_nat (length (questions (quiz r))) /\
    questions (quiz r) !! Z.to_nat 0 = Some question /\
    Some {| content := "2 + 2 ?"; correct := [1] |} = Some question.
Proof.
  apply (no_undefined_question_is_sent answered (EvJoinLive bob "qz-abc123")
           (joinLive answered bob "qz-abc123")
           (SocketEmit 3 (newQuestion (Some {| content := "2 + 2 ?"; correct := [1] |}) 0))).
  - reach answered_trace.
  - reflexivity.
  - vm_compute. do 4 right. left. reflexivity.
  - reflexivity.
Defined.

(** ** Codes *)

(** X12.  The code loop takes the first draw whose code is not
    registered, skipping the draws that collide; it fails to end only
    if every draw it is given collides. *)
Theorem freshCode_takes_first_free_draw (draws : list string) (m : list (string * room)) :
  match freshCode draws m with
  | Some c =>
      exists pre rnd post,
        draws = pre ++ rnd :: post /\
        (forall x, In x pre -> JsMap.has (generateCode x) m = true) /\
        c = generateCode rnd /\
        JsMap.has c m = false
  | None => forall rnd, In rnd draws -> JsMap.has (generateCode rnd) m = true
  end.
Proof.
  induction draws as [|rnd draws IH]; simpl; [by intros ? []|].
  destruct (JsMap.has (generateCode rnd) m) eqn:Hhas.
  - destruct (freshCode draws m) as [c|].
    + destruct IH as (pre & x & post & -> & Hpre & -> & Hfree).
      exists (rnd :: pre), x, post. repeat split; [|done].
      intros y [<-|Hy]; [done | by apply Hpre].
    + intros x [<-|Hx]; [done | by apply IH].
  - exists [], rnd, draws. repeat split; [by intros ? [] | done].
Qed.

Lemma set_fresh_append {V} (k : string) (v : V) (m : list (string * V)) :
  JsMap.get k m = None -> JsMap.set k v m = m ++ [(k, v)].
Proof.
  induction m as [|[k' v'] m IH]; simpl; [done|].
  destruct (String.eqb_spec k k'); [done|]. intros H. by rewrite IH.
Qed.

(** X13.  The code that [createLive] replies was free: no session was
    registered under it.  The new session goes to the end of the
    registry, after all the sessions that were there, which are left as
    they were; it starts in the lobby with no participant, and the host
    is subscribed to the group named by the code. *)
Theorem createLive_registers_a_fresh_session (s : state) (sock : socket) (qid : string)
    (f : fetched) (draws : list string) (res : result) (c : string) :
  createLive s sock qid f draws = Some res ->
  In (Callback (sid sock) (ReplyCode c)) (out res) ->
  JsMap.get c (liveRooms s) = None /\
  (exists d,
     f = Doc d /\
     liveRooms (st res) =
       liveRooms s ++ [(c, {| code := c; hostSocket := sock; quizId := qid; quiz := d;
                              currentIndex := 0; participants := ∅ |})]) /\
  (sid sock, c) ∈ joined (st res).
Proof.
  intros Hcreate Hreply.
  destruct (createLive_replied_code _ _ _ _ _ _ _ Hcreate Hreply) as (d & -> & Hfresh & ->).
  destruct (freshCode_generated _ _ _ Hfresh) as [Hnone _].
  split; [done|]. split.
  - exists d. split; [done|]. simpl. by apply set_fresh_append.
  - simpl. apply elem_of_union_l. by apply elem_of_singleton.
Qed.

Lemma createLive_registers_a_fresh_session_witness :
  JsMap.get "QZ-DEF456" (liveRooms lobby_alice) = None /\
  (exists d,
     Doc quiz1 = Doc d /\
     liveRooms (state_of (createLive lobby_alice teacher "quiz-1" (Doc quiz1)
                            ["abc123"; "def456"])) =
       liveRooms lobby_alice
         ++ [("QZ-DEF456"%string,
              {| code := "QZ-DEF456"; hostSocket := teacher; quizId := "quiz-1";
                 quiz := d; currentIndex := 0; participants := ∅ |})]) /\
  (sid teacher, "QZ-DEF456"%string) ∈
    joined (state_of (createLive lobby_alice teacher "quiz-1" (Doc quiz1)
                        ["abc123"; "def456"])).
Proof.
  apply (createLive_registers_a_fresh_session lobby_alice teacher "quiz-1" (Doc quiz1)
           ["abc123"; "def456"]
           {| st := state_of (createLive lobby_alice teacher "quiz-1" (Doc quiz1)
                                ["abc123"; "def456"]);
              out := [Console (LogLiveCreated "t1" "QZ-DEF456");
                      Callback 1 (ReplyCode "QZ-DEF456");
                      SocketEmit 1 (liveCreated "QZ-DEF456")];
              threw := false |} "QZ-DEF456").
  - vm_compute. reflexivity.
  - simpl. right. left. reflexivity.
Defined.

Lemma joinLive_unknown (s : state) (sock : socket) (c : string) :
  JsMap.get (toUpperCase c) (liveRooms s) = None ->
  joinLive s sock c =
    {| st := s; out := [Callback (sid sock) (ReplyError InvalidCode)]; threw := false |}.
Proof. intros Hget. unfold joinLive. by rewrite Hget. Qed.

(** X14.  The code that [createLive] replies is in upper case, and it
    admits joiners as it is or typed in any letter case: a [joinLive]
    with a code that upper-cases to it is replied success and records
    the caller as a participant of that session with score 0. *)
Theorem created_code_admits_joiners (s : state) (sock : socket) (qid : string)
    (f : fetched) (draws : list string) (res : result) (c : string) :
  createLive s sock qid f draws = Some res ->
  In (Callback (sid sock) (ReplyCode c)) (out res) ->
  toUpperCase c = c /\
  forall sock' c',
    toUpperCase c' = c ->
    In (Callback (sid sock') ReplySuccess) (out (joinLive (st res) sock' c')) /\
    participant_of (st (joinLive (st res) sock' c')) c (uid (socket_user sock')) =
      Some {| name := user_name (socket_user sock'); score := 0; answers := ∅ |}.
Proof.
  intros Hcreate Hreply.
  destruct (createLive_replied_code _ _ _ _ _ _ _ Hcreate Hreply) as (d & -> & Hfresh & ->).
  destruct (freshCode_generated _ _ _ Hfresh) as [_ (rnd & _ & ->)].
  split; [apply generateCode_canonical|].
  intros sock' c' Hc'.
  destruct (joinLive_found
              {| liveRooms := JsMap.set (generateCode rnd)
                   {| code := generateCode rnd; hostSocket := sock; quizId := qid; quiz := d;
                      currentIndex := 0; participants := ∅ |} (liveRooms s);
                 joined := {[ (sid sock, generateCode rnd) ]} ∪ joined s |}
              sock' c'
              {| code := generateCode rnd; hostSocket := sock; quizId := qid; quiz := d;
                 currentIndex := 0; participants := ∅ |})
    as (_ & Hok & Hpart).
  { simpl. rewrite Hc'. apply get_set_eq. }
  rewrite Hc' in Hpart. by split.
Qed.

Lemma created_code_admits_joiners_witness :
  toUpperCase "QZ-ABC123" = "QZ-ABC123"%string /\
  forall sock' c',
    toUpperCase c' = "QZ-ABC123"%string ->
    In (Callback (sid sock') ReplySuccess) (out (joinLive lobby sock' c')) /\
    participant_of (st (joinLive lobby sock' c')) "QZ-ABC123" (uid (socket_user sock')) =
      Some {| name := user_name (socket_user sock'); score := 0; answers := ∅ |}.
Proof.
  apply (created_code_admits_joiners init teacher "quiz-2" (Doc quiz2) ["abc123"]
           {| st := lobby;
              out := [Console (LogLiveCreated "t1" "QZ-ABC123");
                      Callback 1 (ReplyCode "QZ-ABC123");
                      SocketEmit 1 (liveCreated "QZ-ABC123")];
              threw := false |} "QZ-ABC123").
  - reflexivity.
  - simpl. right. left. reflexivity.
Defined.

(** ** Joining *)

(** X15.  [joinLive] does not look at the letter case of the code for
    the session it finds: two codes that differ only in case lead to the
    same registry, the same acknowledgement and the same outcome. *)
Theorem joinLive_ignores_letter_case (s : state) (sock : socket) (c c' : string) :
  toUpperCase c = toUpperCase c' ->
  liveRooms (st (joinLive s sock c)) = liveRooms (st (joinLive s sock c')) /\
  callbacks (out (joinLive s sock c)) = callbacks (out (joinLive s sock c')) /\
  threw (joinLive s sock c) = threw (joinLive s sock c').
Proof.
  intros Heq. unfold joinLive. rewrite Heq.
  destruct (JsMap.get (toUpperCase c') (liveRooms s)) as [r|]; simpl; [|done].
  by destruct (0 <? currentIndex r).
Qed.

Lemma joinLive_ignores_letter_case_witness :
  liveRooms (st (joinLive lobby alice "qz-abc123")) =
    liveRooms (st (joinLive lobby alice "Qz-AbC123")) /\
  callbacks (out (joinLive lobby alice "qz-abc123")) =
    callbacks (out (joinLive lobby alice "Qz-AbC123")) /\
  threw (joinLive lobby alice "qz-abc123") = threw (joinLive lobby alice "Qz-AbC123").
Proof.
  apply (joinLive_ignores_letter_case lobby alice "qz-abc123" "Qz-AbC123").
  reflexivity.
Defined.

(** X16.  A [joinLive] that finds the session records the caller under
    its [uid] with score 0 and no answers, and leaves the other
    participants alone.  The count it announces to the host is the
    number of participants after the join: one more than before for a
    new [uid], the same as before for a user who joins again, whose
    earlier score and answers are lost. *)
Theorem joinLive_counts_a_user_once (s : state) (sock : socket) (c : string) (r : room) :
  JsMap.get (toUpperCase c) (liveRooms s) = Some r ->
  let res := joinLive s sock c in
  let me := uid (socket_user sock) in
  let n := match participants r !! me with
           | Some _ => size (participants r)
           | None => S (size (participants r))
           end in
  In (SocketEmit (sid (hostSocket r)) (studentJoined (user_name (socket_user sock)) n))
     (out res) /\
  exists r',
    JsMap.get (toUpperCase c) (liveRooms (st res)) = Some r' /\
    size (participants r') = n /\
    participants r' !! me =
      Some {| name := user_name (socket_user sock); score := 0; answers := ∅ |} /\
    forall u, u <> me -> participants r' !! u = participants r !! u.
Proof.
  intros Hget res me n. subst res. unfold joinLive. rewrite Hget. simpl.
  assert (Hsize : size (<[me := {| name := user_name (socket_user sock); score := 0;
                                   answers := ∅ |}]> (participants r)) = n).
  { subst n. rewrite map_size_insert. by destruct (participants r !! me). }
  split.
  - left. do 2 f_equal. exact Hsize.
  - eexists. split; [by apply get_mutate_known|]. simpl.
    split; [exact Hsize|]. split; [apply lookup_insert_eq|].
    intros u Hu. by apply lookup_insert_ne.
Qed.

(** Alice, who has score 1, joins again: the count stays 1. *)
Lemma joinLive_counts_a_user_once_witness :
  let r := with_participant "a1" {| name := "Alice"; score := 1; answers := {[ 0 := 1 ]} |}
             (advance (with_participant "a1" alice0 room0)) in
  let res := joinLive answered alice "QZ-ABC123" in
  let me := uid (socket_user alice) in
  let n := match participants r !! me with
           | Some _ => size (participants r)
           | None => S (size (participants r))
           end in
  In (SocketEmit (sid (hostSocket r)) (studentJoined (user_name (socket_user alice)) n))
     (out res) /\
  exists r',
    JsMap.get (toUpperCase "QZ-ABC123") (liveRooms (st res)) = Some r' /\
    size (participants r') = n /\
    participants r' !! me =
      Some {| name := user_name (socket_user alice); score := 0; answers := ∅ |} /\
    forall u, u <> me -> participants r' !! u = participants r !! u.
Proof.
  apply (joinLive_counts_a_user_once answered alice "QZ-ABC123").
  vm_compute. reflexivity.
Defined.

(** X17.  Who joins after a question was sent is sent that very
    question: the catch-up message of [joinLive] carries the question
    and the index that the last [nextQuestion] broadcast. *)
Theorem late_joiner_gets_the_last_question (s : state) (host sock : socket)
    (c c' : string) (r : room) :
  JsMap.get c (liveRooms s) = Some r ->
  hostSocket r = host ->
  0 <= currentIndex r < Z.of_nat (length (questions (quiz r))) ->
  toUpperCase c' = c ->
  exists q n,
    questions (quiz r) !! Z.to_nat (currentIndex r) = Some q /\
    out (nextQuestion s host c) =
      [IoTo c (newQuestion (Some q) (currentIndex r));
       Console (LogQuestionSent (currentIndex r + 1) c)] /\
    out (joinLive (st (nextQuestion s host c)) sock c') =
      [SocketEmit (sid host) (studentJoined (user_name (socket_user sock)) n);
       SocketTo (sid sock) c' (studentJoined (user_name (socket_user sock)) n);
       Console (LogJoined (user_name (socket_user sock)) c');
       Callback (sid sock) ReplySuccess;
       SocketEmit (sid sock) (newQuestion (Some q) (currentIndex r))].
Proof.
  intros Hget Hhost Hrange Hc'.
  destruct (question_at_defined (questions (quiz r)) (currentIndex r) Hrange) as (q & Hq & Hl).
  exists q. eexists. split; [done|].
  rewrite (nextQuestion_sends s host c r Hget Hhost) by lia. rewrite Hq. split; [done|].
  unfold joinLive. simpl. rewrite Hc', (get_mutate_known _ _ _ _ Hget). simpl.
  destruct (Z.ltb_spec 0 (currentIndex r + 1)); [|lia].
  replace (currentIndex r + 1 - 1) with (currentIndex r) by lia.
  rewrite Hq, Hhost. reflexivity.
Qed.

Lemma late_joiner_gets_the_last_question_witness :
  exists q n,
    questions (quiz (with_participant "a1" alice0 room0))
      !! Z.to_nat (currentIndex (with_participant "a1" alice0 room0)) = Some q /\
    out (nextQuestion lobby_alice teacher "QZ-ABC123") =
      [IoTo "QZ-ABC123"
         (newQuestion (Some q) (currentIndex (with_participant "a1" alice0 room0)));
       Console (LogQuestionSent (currentIndex (with_participant "a1" alice0 room0) + 1)
                  "QZ-ABC123")] /\
    out (joinLive (st (nextQuestion lobby_alice teacher "QZ-ABC123")) bob "qz-abc123") =
      [SocketEmit (sid teacher) (studentJoined (user_name (socket_user bob)) n);
       SocketTo (sid bob) "qz-abc123" (studentJoined (user_name (socket_user bob)) n);
       Console (LogJoined (user_name (socket_user bob)) "qz-abc123");
       Callback (sid bob) ReplySuccess;
       SocketEmit (sid bob)
         (newQuestion (Some q) (currentIndex (with_participant "a1" alice0 room0)))].
Proof.
  apply (late_joiner_gets_the_last_question lobby_alice teacher bob "QZ-ABC123" "qz-abc123"
           (with_participant "a1" alice0 room0)).
  - vm_compute. reflexivity.
  - reflexivity.
  - simpl. lia.
  - reflexivity.
Defined.

(** X18.  On a session just created the questions go out in the order
    of the quiz, one per call of the host: the call number [i + 1]
    broadcasts the question at position [i] to the group named by the
    code, with the index [i]. *)
Theorem questions_go_out_in_order (s : state) (sock : socket) (qid : string)
    (d : quizData) (draws : list string) (res : result) (c : string)
    (i : nat) (q : question) :
  createLive s sock qid (Doc d) draws = Some res ->
  In (Callback (sid sock) (ReplyCode c)) (out res) ->
  questions d !! i = Some q ->
  out (nextQuestion (repeat_call (fun s' => nextQuestion s' sock c) i (st res)) sock c) =
    [IoTo c (newQuestion (Some q) (Z.of_nat i));
     Console (LogQuestionSent (Z.of_nat i + 1) c)].
Proof.
  intros Hcreate Hreply Hq.
  by apply (fresh_session_call_output s sock qid d draws res c i q).
Qed.

Lemma questions_go_out_in_order_witness :
  out (nextQuestion (repeat_call (fun s' => nextQuestion s' teacher "QZ-ABC123") 1 lobby)
         teacher "QZ-ABC123") =
    [IoTo "QZ-ABC123" (newQuestion (Some {| content := "primes ?"; correct := [0; 2] |})
                         (Z.of_nat 1));
     Console (LogQuestionSent (Z.of_nat 1 + 1) "QZ-ABC123")].
Proof.
  apply (questions_go_out_in_order init teacher "quiz-2" quiz2 ["abc123"]
           {| st := lobby;
              out := [Console (LogLiveCreated "t1" "QZ-ABC123");
                      Callback 1 (ReplyCode "QZ-ABC123");
                      SocketEmit 1 (liveCreated "QZ-ABC123")];
              threw := false |} "QZ-ABC123" 1).
  - reflexivity.
  - simpl. right. left. reflexivity.
  - reflexivity.
Defined.

(** ** Answering *)

(** X19.  An answer to the current question is stored under the index of
    that question, replacing what was stored there; the score goes up by
    1 if the answer is among the correct ones and stays as it is
    otherwise; the name is kept. *)
Theorem submitAnswer_keeps_the_last_answer (s : state) (sock : socket) (c : string) (a : Z)
    (r : room) (p : participant) (q : question) :
  JsMap.get c (liveRooms s) = Some r ->
  participants r !! uid (socket_user sock) = Some p ->
  question_at (questions (quiz r)) (currentIndex r - 1) = Some q ->
  participant_of (st (submitAnswer s sock c a)) c (uid (socket_user sock)) =
    Some {| name := name p;
            score := score p + (if includes a (correct q) then 1 else 0);
            answers := <[currentIndex r - 1 := a]> (answers p) |}.
Proof.
  intros Hget Hp Hq.
  rewrite (submitAnswer_processed s sock c a r p q Hget Hp Hq). unfold participant_of. simpl.
  rewrite (get_mutate_known _ _ _ _ Hget). simpl. rewrite lookup_insert_eq.
  destruct (includes a (correct q)); simpl; [done|]. by rewrite Z.add_0_r.
Qed.

(** Alice changes her answer to question 0 from 1 (correct) to 0. *)
Lemma submitAnswer_keeps_the_last_answer_witness :
  participant_of (st (submitAnswer answered alice "QZ-ABC123" 0)) "QZ-ABC123" "a1" =
    Some {| name := "Alice";
            score := 1 + (if includes 0 [1] then 1 else 0);
            answers := <[1 - 1 := 0]> {[ 0 := 1 ]} |}.
Proof.
  refine (submitAnswer_keeps_the_last_answer answered alice "QZ-ABC123" 0
           (with_participant "a1" {| name := "Alice"; score := 1; answers := {[ 0 := 1 ]} |}
              (advance (with_participant "a1" alice0 room0)))
           {| name := "Alice"; score := 1; answers := {[ 0 := 1 ]} |}
           {| content := "2 + 2 ?"; correct := [1] |} _ _ _).
  - vm_compute. reflexivity.
  - vm_compute. reflexivity.
  - reflexivity.
Defined.

(** X20.  Whatever it does, a [submitAnswer] touches nothing but the
    record of the caller in the session it names: the keys of the
    registry and the group memberships are as before, the other
    sessions are as before, and in the session itself the other
    participants and [currentIndex] are as before. *)
Theorem submitAnswer_touches_the_caller_only (s : state) (sock : socket) (c : string) (a : Z) :
  let s' := st (submitAnswer s sock c a) in
  map fst (liveRooms s') = map fst (liveRooms s) /\
  joined s' = joined s /\
  (forall k, k <> c -> JsMap.get k (liveRooms s') = JsMap.get k (liveRooms s)) /\
  (forall u, u <> uid (socket_user sock) -> participant_of s' c u = participant_of s c u) /\
  (currentIndex <$> JsMap.get c (liveRooms s')) = (currentIndex <$> JsMap.get c (liveRooms s)).
Proof.
  unfold submitAnswer.
  destruct (JsMap.get c (liveRooms s)) as [r|] eqn:Hget; [|simpl; by rewrite Hget].
  destruct (participants r !! uid (socket_user sock)) as [p|]; [|simpl; by rewrite Hget].
  assert (Hframe : forall p',
    let s' := {| liveRooms := JsMap.mutate c (with_participant (uid (socket_user sock)) p')
                                (liveRooms s);
                 joined := joined s |} in
    map fst (liveRooms s') = map fst (liveRooms s) /\
    joined s' = joined s /\
    (forall k, k <> c -> JsMap.get k (liveRooms s') = JsMap.get k (liveRooms s)) /\
    (forall u, u <> uid (socket_user sock) -> participant_of s' c u = participant_of s c u) /\
    (currentIndex <$> JsMap.get c (liveRooms s')) = Some (currentIndex r)).
  { intros p'. simpl. split; [apply keys_mutate|]. split; [done|]. split; [|split].
    - intros k Hk. by apply get_mutate_ne.
    - intros u Hu. unfold participant_of. simpl.
      rewrite (get_mutate_known _ _ _ _ Hget), Hget. simpl. by apply lookup_insert_ne.
    - by rewrite (get_mutate_known _ _ _ _ Hget). }
  destruct (question_at _ _); simpl; apply Hframe.
Qed.

(** ** The end of a session *)

(** X21.  When the host ends a live, the group is told [liveEnded]
    (ended by teacher) and the session is gone while the others stay:
    from then on [nextQuestion], [submitAnswer] and [endLive] for that
    code are ignored, from anybody, and [joinLive] for it, in any letter
    case, is refused with the invalid-code error and changes nothing. *)
Theorem ended_live_is_gone (s : state) (sock : socket) (c : string) (r : room) :
  JsMap.get c (liveRooms s) = Some r ->
  hostSocket r = sock ->
  let s' := st (endLive s sock c) in
  out (endLive s sock c) = [IoTo c (liveEnded ended_by_teacher); Console (LogEndedByTeacher c)] /\
  JsMap.get c (liveRooms s') = None /\
  (forall k, k <> c -> JsMap.get k (liveRooms s') = JsMap.get k (liveRooms s)) /\
  (forall x a,
     nextQuestion s' x c = ignored s' /\
     submitAnswer s' x c a = ignored s' /\
     endLive s' x c = ignored s') /\
  (forall x c', toUpperCase c' = c ->
     joinLive s' x c' =
       {| st := s'; out := [Callback (sid x) (ReplyError InvalidCode)]; threw := false |}).
Proof.
  intros Hget <-. unfold endLive at 1 2. rewrite Hget, same_socket_refl. simpl.
  split; [done|].
  assert (Hgone : JsMap.get c (JsMap.delete c (liveRooms s)) = None) by apply get_delete_eq.
  split; [done|]. split; [|split].
  - intros k Hk. by apply get_delete_ne.
  - intros x a. unfold nextQuestion, submitAnswer, endLive. simpl. by rewrite Hgone.
  - intros x c' Hc'. apply joinLive_unknown. simpl. by rewrite Hc'.
Qed.

Lemma ended_live_is_gone_witness :
  let s' := st (endLive answered teacher "QZ-ABC123") in
  out (endLive answered teacher "QZ-ABC123") =
    [IoTo "QZ-ABC123" (liveEnded ended_by_teacher);
     Console (LogEndedByTeacher "QZ-ABC123")] /\
  JsMap.get "QZ-ABC123" (liveRooms s') = None /\
  (forall k, k <> "QZ-ABC123"%string ->
     JsMap.get k (liveRooms s') = JsMap.get k (liveRooms answered)) /\
  (forall x a,
     nextQuestion s' x "QZ-ABC123" = ignored s' /\
     submitAnswer s' x "QZ-ABC123" a = ignored s' /\
     endLive s' x "QZ-ABC123" = ignored s') /\
  (forall x c', toUpperCase c' = "QZ-ABC123"%string ->
     joinLive s' x c' =
       {| st := s'; out := [Callback (sid x) (ReplyError InvalidCode)]; threw := false |}).
Proof.
  apply (ended_live_is_gone answered teacher "QZ-ABC123"
           (with_participant "a1" {| name := "Alice"; score := 1; answers := {[ 0 := 1 ]} |}
              (advance (with_participant "a1" alice0 room0)))).
  - vm_compute. reflexivity.
  - reflexivity.
Defined.

Lemma hosted_by_none (sock : socket) (m : list (string * room)) :
  Forall (not_hosted_by sock) m -> hosted_by sock m = None.
Proof.
  induction 1 as [|[k r] m Hx _ IH]; simpl; [done|].
  unfold not_hosted_by in Hx. simpl in Hx. by rewrite Hx.
Qed.

(** X22.  The disconnection of a connection that hosts no live, a
    participant for one, ends nothing: the registry, the participants
    with their scores, and the groups are as before, and nothing is sent
    to anybody. *)
Theorem disconnect_of_a_participant_is_silent (s : state) (sock : socket) (why : string) :
  Forall (not_hosted_by sock) (liveRooms s) ->
  disconnect s sock why =
    {| st := s; out := [Console (LogDisconnect (uid (socket_user sock)) why)]; threw := false |}.
Proof. intros Hnot. unfold disconnect. by rewrite (hosted_by_none sock _ Hnot). Qed.

Lemma disconnect_of_a_participant_is_silent_witness :
  disconnect answered alice "ping timeout" =
    {| st := answered;
       out := [Console (LogDisconnect (uid (socket_user alice)) "ping timeout")];
       threw := false |}.
Proof.
  apply (disconnect_of_a_participant_is_silent answered alice "ping timeout").
  apply Forall_forall. intros [k r] Hk. apply list_elem_of_In in Hk.
  destruct Hk as [[= <- <-]|[]]. reflexivity.
Defined.

(** ** Answers on record *)

Lemma handled_answers_in_range (s : state) (e : event) (m : list (string * room)) :
  handled s e m -> Forall answers_in_range (liveRooms s) -> Forall answers_in_range m.
Proof.
  intros [e0|sock qid d draws c _ _ _|sock c r Hget|sock c r Hget _
          |sock c a r p p' Hget Hp _ _ Hans|e0 c _ _ _] Hall.
  - done.
  - apply Forall_set; [|done]. split; simpl; [lia|]. intros u p k a. by rewrite lookup_empty.
  - apply Forall_mutate; [|done]. unfold answers_in_range. simpl. intros v _ [H0 Hv].
    split; [done|]. intros u p k a.
    destruct (decide (uid (socket_user sock) = u)) as [<-|Hne].
    + rewrite lookup_insert_eq. intros [= <-]. simpl. by rewrite lookup_empty.
    + rewrite lookup_insert_ne by done. apply Hv.
  - apply Forall_mutate; [|done]. unfold answers_in_range. simpl. intros v _ [H0 Hv].
    split; [lia|]. intros u p k a Hu Hk. specialize (Hv u p k a Hu Hk). lia.
  - apply Forall_mutate; [|done]. unfold answers_in_range. simpl. intros v Hv [H0 Hin].
    rewrite Hget in Hv. injection Hv as <-.
    split; [done|]. intros u p0 k a0.
    destruct (decide (uid (socket_user sock) = u)) as [<-|Hne].
    + rewrite lookup_insert_eq. intros [= <-]. rewrite Hans.
      destruct (decide (currentIndex r - 1 = k)) as [<-|Hk].
      * intros _. lia.
      * rewrite lookup_insert_ne by done. by apply (Hin (uid (socket_user sock)) p).
    + rewrite lookup_insert_ne by done. apply Hin.
  - by apply Forall_delete.
Qed.

(** X23.  In every state the server can reach, an answer on record is
    filed under the index of a question that was already sent, that is
    under an index below [currentIndex], or under -1, where an answer
    sent in the lobby lands. *)
Theorem answers_are_for_sent_questions (s : state) (c u : string) (r : room)
    (p : participant) (k a : Z) :
  reachable s ->
  In (c, r) (liveRooms s) ->
  participants r !! u = Some p ->
  answers p !! k = Some a ->
  -1 <= k < currentIndex r.
Proof.
  intros (evs & o & Hrun) Hin Hp Hk.
  assert (Hall : Forall answers_in_range (liveRooms s)).
  { apply (run_invariant _ handled_answers_in_range evs init s o Hrun). constructor. }
  rewrite Forall_forall in Hall.
  destruct (Hall (c, r) ltac:(by apply list_elem_of_In)) as [_ H]. by apply (H u p k a).
Qed.

Lemma answers_are_for_sent_questions_witness :
  -1 <= 0 < currentIndex
             (with_participant "a1" {| name := "Alice"; score := 1; answers := {[ 0 := 1 ]} |}
                (advance (with_participant "a1" alice0 room0))).
Proof.
  refine (answers_are_for_sent_questions answered "QZ-ABC123" "a1" _
            {| name := "Alice"; score := 1; answers := {[ 0 := 1 ]} |} 0 1 _ _ _ _).
  - reach answered_trace.
  - left. vm_compute. reflexivity.
  - vm_compute. reflexivity.
  - vm_compute. reflexivity.
Defined.
